(** * aiosurrealdb: the websocket RPC client ([aiosurrealdb/ws.py])

    A shallow embedding of [ws.py]: the pydantic envelope models
    ([Request], [ResponseSuccess], [ResponseError]), the error classifier
    [_validate_response], and the [Surreal] client with its connection
    state, its cached token and the transport objects it holds.

    Python values are modelled by [value]; methods of [Surreal] are programs
    in a small state-and-exception monad [Prog] that threads the client
    object ([self]) and the outside world (the aiohttp transport and the
    uuid source).  A raised exception keeps every mutation made before it,
    as in Python. *)

From Stdlib Require Import String List ZArith Bool Lia.
From Stdlib Require Import Floats.SpecFloat.
Import ListNotations.
Open Scope string_scope.

(** ** Python values *)

(** The values that travel through the client: what [json.loads] produces
    and what [json.dumps] accepts.  Tuples and lists are both [VList] (the
    JSON encoder writes either as an array); a dict is an association list
    read by its first binding of a key. *)
#[warnings="-register-all"]
Inductive value : Type :=
| VNone
| VBool (b : bool)
| VInt (n : Z)
| VFloat (f : spec_float)
| VStr (s : string)
| VList (items : list value)
| VDict (entries : list (string * value)).

(** [bool(v)]: Python's truth value testing. *)
Definition truthy (v : value) : bool :=
  match v with
  | VNone => false
  | VBool b => b
  | VInt n => negb (n =? 0)%Z
  | VFloat (S754_zero _) => false
  | VFloat _ => true
  | VStr EmptyString => false
  | VStr _ => true
  | VList [] => false
  | VList _ => true
  | VDict [] => false
  | VDict _ => true
  end.

(** [v is None]. *)
Definition is_None (v : value) : bool :=
  match v with VNone => true | _ => false end.

(** [d.get(key)] / [d[key]] on the entries of a dict. *)
Fixpoint lookup (key : string) (entries : list (string * value)) : option value :=
  match entries with
  | [] => None
  | (k, v) :: rest => if String.eqb k key then Some v else lookup key rest
  end.

(** ** Exceptions *)

(** The exception classes the module can raise.  The three Surreal classes
    come from [aiosurrealdb/exceptions.py]; they are only ever instantiated
    as [cls(message)].  [Foreign] stands for whatever the transport
    raises. *)
Inductive ExcClass : Type :=
| SurrealException
| SurrealAuthenticationException
| SurrealPermissionException
| ValidationError
| AttributeError
| TypeError
| AssertionError
| Foreign (name : string).

(** An exception instance: its class and the arguments it was built
    from ([e.args]). *)
Record exception : Type := Exc { exc_class : ExcClass; exc_args : list value }.

Inductive outcome (A : Type) : Type :=
| Return (a : A)
| Raise (e : exception).
Arguments Return {A} a.
Arguments Raise {A} e.

(** ** Connection state *)

Inductive ConnectionState : Type := CONNECTING | CONNECTED | DISCONNECTED.

Definition ConnectionState_eqb (a b : ConnectionState) : bool :=
  match a, b with
  | CONNECTING, CONNECTING | CONNECTED, CONNECTED | DISCONNECTED, DISCONNECTED => true
  | _, _ => false
  end.

(** ** The pydantic models *)

(** What pydantic does to a field value that is not already of the
    declared type ([str(v)] of a number for a [str] field, [int(v)] of a
    numeric string for an [int] field, or a rejection).  This is library
    behaviour and stays a parameter; a value of the declared type is taken
    as it is. *)
Class Pydantic : Type := {
  coerce_str : value -> option string;
  coerce_int : value -> option Z
}.

Definition str_validator `{Pydantic} (v : value) : option string :=
  match v with VStr s => Some s | _ => coerce_str v end.

Definition int_validator `{Pydantic} (v : value) : option Z :=
  match v with VInt n => Some n | _ => coerce_int v end.

Record Request : Type := {
  req_id : string;
  req_method : string;
  req_params : list value
}.

(** [Request.validate_params]: [() if value is None else value], on
    the [params] argument [v]. *)
Definition validate_params (v : option (list value)) : list value :=
  match v with
  | None => []
  | Some v => v
  end.

(** [Request(id=..., method=..., params=...)]; [params] defaults to
    [None] and always goes through the validator ([always=True]). *)
Definition Request_new (id method : string) (params : option (list value)) : Request :=
  {| req_id := id; req_method := method; req_params := validate_params params |}.

(** [request.dict()]. *)
Definition Request_dict (request : Request) : value :=
  VDict [("id", VStr (req_id request));
         ("method", VStr (req_method request));
         ("params", VList (req_params request))].

Record ResponseSuccess : Type := {
  rs_id : string;
  rs_result : value
}.

Record ResponseError : Type := {
  re_code : Z;
  re_message : string
}.

Inductive Response : Type :=
| Success (r : ResponseSuccess)
| Error (e : ResponseError).

Definition validation_error : exception := Exc ValidationError [].

(** [ResponseSuccess] built from keyword arguments: [id] is required
    and validated as a string; [result] is [Any], hence optional with
    default [None] and kept as given; other keys are ignored. *)
Definition ResponseSuccess_new `{Pydantic} (kwargs : list (string * value))
  : outcome ResponseSuccess :=
  match lookup "id" kwargs with
  | None => Raise validation_error
  | Some i =>
      match str_validator i with
      | None => Raise validation_error
      | Some i' =>
          Return {| rs_id := i';
                    rs_result := match lookup "result" kwargs with
                                 | Some r => r
                                 | None => VNone
                                 end |}
      end
  end.

(** [ResponseError] built from keyword arguments: [code] and [message]
    are both required; other keys are ignored. *)
Definition ResponseError_new `{Pydantic} (kwargs : list (string * value))
  : outcome ResponseError :=
  match lookup "code" kwargs, lookup "message" kwargs with
  | Some c, Some m =>
      match int_validator c, str_validator m with
      | Some c', Some m' => Return {| re_code := c'; re_message := m' |}
      | _, _ => Raise validation_error
      end
  | _, _ => Raise validation_error
  end.

(** [_validate_response(response, exception)]: raise [exception(message)]
    on an error response, return the response otherwise. *)
Definition _validate_response (response : Response) (exception : ExcClass)
  : outcome ResponseSuccess :=
  match response with
  | Error e => Raise (Exc exception [VStr (re_message e)])
  | Success r => Return r
  end.

(** ** The client object and the world around it *)

(** Transport objects (an [aiohttp.ClientSession], a
    [ClientWebSocketResponse]) are known by their identity. *)
Definition handle : Type := nat.

Record Surreal : Type := {
  url : string;
  client_state : ConnectionState;
  token : value;
  session : option handle;
  ws : option handle
}.

(** [Surreal(url)]. *)
Definition __init__ (url : string) : Surreal :=
  {| url := url; client_state := CONNECTING; token := VNone;
     session := None; ws := None |}.

(** A call into the transport. *)
Inductive Invocation : Type :=
| ws_connect (session : handle) (url : string)
| send_json (ws : handle) (data : value)
| receive_json (ws : handle)
| ws_close (ws : handle)
| session_close (session : handle).

(** What the transport does when called: return a value or raise. *)
Inductive Reply : Type :=
| Gives (v : value)
| Fails (e : exception).

(** The world outside the client: the source of random uuids with the
    number already drawn, the behaviour of the transport at its n-th
    invocation, the invocations made so far (most recent first) and the
    number of transport objects created. *)
Record World : Type := {
  entropy : nat -> string;
  drawn : nat;
  peer : nat -> Reply;
  calls : list Invocation;
  objects : nat
}.

(** The result of running a method: what it returned or raised, the
    client object and the world afterwards. *)
Record Ran (A : Type) : Type := {
  result : outcome A;
  self : Surreal;
  world : World
}.
Arguments result {A} r.
Arguments self {A} r.
Arguments world {A} r.

Definition Prog (A : Type) : Type := Surreal -> World -> Ran A.

Definition ret {A : Type} (a : A) : Prog A :=
  fun s w => {| result := Return a; self := s; world := w |}.

Definition raise {A : Type} (e : exception) : Prog A :=
  fun s w => {| result := Raise e; self := s; world := w |}.

Definition bind {A B : Type} (m : Prog A) (k : A -> Prog B) : Prog B :=
  fun s w =>
    let r := m s w in
    match result r with
    | Return a => k a (self r) (world r)
    | Raise e => {| result := Raise e; self := self r; world := world r |}
    end.

Declare Scope prog_scope.
Delimit Scope prog_scope with prog.
Notation "x <- m ;; k" := (bind m (fun x => k))
  (at level 61, m at next level, right associativity) : prog_scope.
Notation "m ;; k" := (bind m (fun _ => k))
  (at level 61, right associativity) : prog_scope.
Open Scope prog_scope.

(** Lift a pure computation that may raise. *)
Definition lift {A : Type} (o : outcome A) : Prog A :=
  match o with
  | Return a => ret a
  | Raise e => raise e
  end.

Definition get_self : Prog Surreal :=
  fun s w => {| result := Return s; self := s; world := w |}.

Definition set_client_state (c : ConnectionState) : Prog unit :=
  fun s w => {| result := Return tt;
                self := {| url := url s; client_state := c; token := token s;
                           session := session s; ws := ws s |};
                world := w |}.

Definition set_token (t : value) : Prog unit :=
  fun s w => {| result := Return tt;
                self := {| url := url s; client_state := client_state s; token := t;
                           session := session s; ws := ws s |};
                world := w |}.

Definition set_session (h : option handle) : Prog unit :=
  fun s w => {| result := Return tt;
                self := {| url := url s; client_state := client_state s; token := token s;
                           session := h; ws := ws s |};
                world := w |}.

Definition set_ws (h : option handle) : Prog unit :=
  fun s w => {| result := Return tt;
                self := {| url := url s; client_state := client_state s; token := token s;
                           session := session s; ws := h |};
                world := w |}.

(** [generate_uuid()]: [str(uuid.uuid4())], the next draw from the
    entropy source. *)
Definition generate_uuid : Prog string :=
  fun s w => {| result := Return (entropy w (drawn w)); self := s;
                world := {| entropy := entropy w; drawn := S (drawn w);
                            peer := peer w; calls := calls w;
                            objects := objects w |} |}.

(** Creating a transport object yields an identity never used before. *)
Definition new_object : Prog handle :=
  fun s w => {| result := Return (objects w); self := s;
                world := {| entropy := entropy w; drawn := drawn w;
                            peer := peer w; calls := calls w;
                            objects := S (objects w) |} |}.

(** Awaiting a transport call: it is recorded, and returns or raises as
    the transport decides. *)
Definition invoke (i : Invocation) : Prog value :=
  fun s w =>
    let w' := {| entropy := entropy w; drawn := drawn w; peer := peer w;
                 calls := i :: calls w; objects := objects w |} in
    match peer w (length (calls w)) with
    | Gives v => {| result := Return v; self := s; world := w' |}
    | Fails e => {| result := Raise e; self := s; world := w' |}
    end.

(** [assert self.ws is not None]. *)
Definition assert_ws : Prog handle :=
  s <- get_self ;;
  match ws s with
  | Some h => ret h
  | None => raise (Exc AssertionError [])
  end.

(** ** Send and receive *)

(** [Surreal._validate_connection]. *)
Definition _validate_connection : Prog unit :=
  s <- get_self ;;
  if negb (ConnectionState_eqb (client_state s) CONNECTED)
  then raise (Exc SurrealException [VStr "Not connected to Surreal server."])
  else ret tt.

(** [Surreal._send]. *)
Definition _send (request : Request) : Prog unit :=
  _validate_connection ;;
  h <- assert_ws ;;
  invoke (send_json h (Request_dict request)) ;;
  ret tt.

(** [Surreal._recv]: [response.get("error")] needs a dict (anything else
    has no [get]); a truthy error field is unpacked into [ResponseError],
    which needs a mapping; every other dict goes to [ResponseSuccess]. *)
Definition _recv `{Pydantic} : Prog Response :=
  _validate_connection ;;
  h <- assert_ws ;;
  response <- invoke (receive_json h) ;;
  match response with
  | VDict entries =>
      match lookup "error" entries with
      | Some err =>
          if truthy err then
            match err with
            | VDict kwargs => e <- lift (ResponseError_new kwargs) ;; ret (Error e)
            | _ => raise (Exc TypeError [])
            end
          else r <- lift (ResponseSuccess_new entries) ;; ret (Success r)
      | None => r <- lift (ResponseSuccess_new entries) ;; ret (Success r)
      end
  | _ => raise (Exc AttributeError [])
  end.

(** [Surreal._send_receive]. *)
Definition _send_receive `{Pydantic} (request : Request) : Prog Response :=
  _send request ;;
  _recv.

(** ** Connection lifecycle *)

(** [Surreal.connect]: a new [ClientSession], then [ws_connect] on it,
    whose result is a new websocket object. *)
Definition connect : Prog value :=
  c <- new_object ;;
  set_session (Some c) ;;
  s <- get_self ;;
  invoke (ws_connect c (url s)) ;;
  h <- new_object ;;
  set_ws (Some h) ;;
  set_client_state CONNECTED ;;
  ret VNone.

(** [Surreal.close].  The transport objects define neither [__bool__]
    nor [__len__], so [if self.ws:] tests for [None]. *)
Definition close : Prog value :=
  s <- get_self ;;
  match ws s with
  | Some h => invoke (ws_close h) ;; ret tt
  | None => ret tt
  end ;;
  match session s with
  | Some c => invoke (session_close c) ;; ret tt
  | None => ret tt
  end ;;
  set_client_state DISCONNECTED ;;
  ret VNone.

(** [Surreal.__aenter__]: connect, then [return self]. *)
Definition __aenter__ : Prog Surreal := connect ;; get_self.

(** [Surreal.__aexit__]: the three arguments are not looked at. *)
Definition __aexit__ (exc_type exc_value traceback : value) : Prog value :=
  close ;; ret VNone.

(** ** The RPC methods *)

Section Methods.
Context `{Pydantic}.

Definition use (namespace database : string) : Prog value :=
  i <- generate_uuid ;;
  response <- _send_receive (Request_new i "use" (Some [VStr namespace; VStr database])) ;;
  lift (_validate_response response SurrealException) ;;
  ret VNone.

Definition signup (vars : value) : Prog value :=
  i <- generate_uuid ;;
  response <- _send_receive (Request_new i "signup" (Some [vars])) ;;
  success <- lift (_validate_response response SurrealAuthenticationException) ;;
  set_token (rs_result success) ;;
  s <- get_self ;;
  ret (token s).

Definition signin (vars : value) : Prog value :=
  i <- generate_uuid ;;
  response <- _send_receive (Request_new i "signin" (Some [vars])) ;;
  success <- lift (_validate_response response SurrealAuthenticationException) ;;
  set_token (rs_result success) ;;
  s <- get_self ;;
  ret (token s).

Definition invalidate : Prog value :=
  i <- generate_uuid ;;
  response <- _send_receive (Request_new i "invalidate" None) ;;
  lift (_validate_response response SurrealAuthenticationException) ;;
  set_token VNone ;;
  ret VNone.

Definition authenticate (token : string) : Prog value :=
  i <- generate_uuid ;;
  response <- _send_receive (Request_new i "authenticate" (Some [VStr token])) ;;
  lift (_validate_response response SurrealAuthenticationException) ;;
  ret VNone.

Definition let_ (key : string) (val : value) : Prog value :=
  i <- generate_uuid ;;
  response <- _send_receive (Request_new i "let" (Some [VStr key; val])) ;;
  success <- lift (_validate_response response SurrealPermissionException) ;;
  ret (rs_result success).

Definition set (key : string) (val : value) : Prog value :=
  i <- generate_uuid ;;
  response <- _send_receive (Request_new i "let" (Some [VStr key; val])) ;;
  success <- lift (_validate_response response SurrealPermissionException) ;;
  ret (rs_result success).

Definition query (sql : string) (vars : value) : Prog value :=
  i <- generate_uuid ;;
  response <- _send_receive
    (Request_new i "query"
       (Some (if is_None vars then [VStr sql] else [VStr sql; vars]))) ;;
  success <- lift (_validate_response response SurrealException) ;;
  ret (rs_result success).

Definition select (thing : string) : Prog value :=
  i <- generate_uuid ;;
  response <- _send_receive (Request_new i "select" (Some [VStr thing])) ;;
  success <- lift (_validate_response response SurrealException) ;;
  ret (rs_result success).

Definition create (thing : string) (data : value) : Prog value :=
  i <- generate_uuid ;;
  response <- _send_receive
    (Request_new i "create"
       (Some (if is_None data then [VStr thing] else [VStr thing; data]))) ;;
  success <- lift (_validate_response response SurrealPermissionException) ;;
  ret (rs_result success).

Definition update (thing : string) (data : value) : Prog value :=
  i <- generate_uuid ;;
  response <- _send_receive
    (Request_new i "update"
       (Some (if is_None data then [VStr thing] else [VStr thing; data]))) ;;
  success <- lift (_validate_response response SurrealPermissionException) ;;
  ret (rs_result success).

Definition merge (thing : string) (data : value) : Prog value :=
  i <- generate_uuid ;;
  response <- _send_receive
    (Request_new i "change"
       (Some (if is_None data then [VStr thing] else [VStr thing; data]))) ;;
  success <- lift (_validate_response response SurrealPermissionException) ;;
  ret (rs_result success).

Definition patch (thing : string) (data : value) : Prog value :=
  i <- generate_uuid ;;
  response <- _send_receive
    (Request_new i "modify"
       (Some (if is_None data then [VStr thing] else [VStr thing; data]))) ;;
  success <- lift (_validate_response response SurrealPermissionException) ;;
  ret (rs_result success).

Definition delete (thing : string) : Prog value :=
  i <- generate_uuid ;;
  response <- _send_receive (Request_new i "delete" (Some [VStr thing])) ;;
  success <- lift (_validate_response response SurrealPermissionException) ;;
  ret (rs_result success).

Definition info : Prog value :=
  i <- generate_uuid ;;
  response <- _send_receive (Request_new i "info" None) ;;
  success <- lift (_validate_response response SurrealException) ;;
  ret (rs_result success).

Definition live (table : string) : Prog value :=
  i <- generate_uuid ;;
  response <- _send_receive (Request_new i "live" (Some [VStr table])) ;;
  success <- lift (_validate_response response SurrealException) ;;
  ret (rs_result success).

Definition ping : Prog value :=
  i <- generate_uuid ;;
  response <- _send_receive (Request_new i "ping" None) ;;
  success <- lift (_validate_response response SurrealException) ;;
  ret (rs_result success).

Definition kill (query : string) : Prog value :=
  i <- generate_uuid ;;
  response <- _send_receive (Request_new i "kill" (Some [VStr query])) ;;
  success <- lift (_validate_response response SurrealException) ;;
  ret (rs_result success).

(** A call of one of the eighteen RPC methods, with its arguments. *)
Inductive Rpc : Type :=
| Use (namespace database : string)
| Signup (vars : value)
| Signin (vars : value)
| Invalidate
| Authenticate (token : string)
| Let (key : string) (val : value)
| Set_ (key : string) (val : value)
| Query (sql : string) (vars : value)
| Select (thing : string)
| Create (thing : string) (data : value)
| Update (thing : string) (data : value)
| Merge (thing : string) (data : value)
| Patch (thing : string) (data : value)
| Delete (thing : string)
| Info
| Live (table : string)
| Ping
| Kill (query : string).

Definition run (c : Rpc) : Prog value :=
  match c with
  | Use n d => use n d
  | Signup v => signup v
  | Signin v => signin v
  | Invalidate => invalidate
  | Authenticate t => authenticate t
  | Let k v => let_ k v
  | Set_ k v => set k v
  | Query q v => query q v
  | Select t => select t
  | Create t d => create t d
  | Update t d => update t d
  | Merge t d => merge t d
  | Patch t d => patch t d
  | Delete t => delete t
  | Info => info
  | Live t => live t
  | Ping => ping
  | Kill q => kill q
  end.

End Methods.

(** The exception class each method hands to [_validate_response] (the
    default, [SurrealException], where the call site names none). *)
Definition raised_class (c : Rpc) : ExcClass :=
  match c with
  | Signup _ | Signin _ | Invalidate | Authenticate _ =>
      SurrealAuthenticationException
  | Let _ _ | Set_ _ _ | Create _ _ | Update _ _ | Merge _ _ | Patch _ _
  | Delete _ =>
      SurrealPermissionException
  | Use _ _ | Query _ _ | Select _ | Info | Live _ | Ping | Kill _ =>
      SurrealException
  end.

(** The methods that end in [return success.result] (or, for the sign-up
    and sign-in pair, in [return self.token] just after storing it); the
    other three are procedures. *)
Definition returns_result (c : Rpc) : bool :=
  match c with
  | Use _ _ | Invalidate | Authenticate _ => false
  | _ => true
  end.

(** ** Concrete transports for examples *)

(** A pydantic that rejects every value not already of the declared
    type.  On frames whose fields have the declared types no coercion
    is consulted. *)
Definition strict : Pydantic :=
  {| coerce_str := fun _ => None; coerce_int := fun _ => None |}.

(** A transport that answers its invocations from a script, in order,
    and raises once the script is over. *)
Definition script (replies : list Reply) : nat -> Reply :=
  fun n => nth n replies (Fails (Exc (Foreign "ConnectionResetError") [])).

Definition uuids : nat -> string :=
  fun n =>
    match n with
    | 0 => "1b4e28ba-2fa1-41d2-883f-0016d3cca427"
    | _ => "6fa459ea-ee8a-4ca4-894e-db77e160355e"
    end.

Definition world_of (replies : list Reply) : World :=
  {| entropy := uuids; drawn := 0; peer := script replies; calls := [];
     objects := 0 |}.

(** The two inbound envelopes of the wire format. *)
Definition error_frame (code : Z) (message : string) : value :=
  VDict [("error", VDict [("code", VInt code); ("message", VStr message)])].

Definition success_frame (id : string) (res : value) : value :=
  VDict [("id", VStr id); ("result", res)].

(** A nested result: a list holding a mapping that holds a list. *)
Definition people : value :=
  VList [VDict [("name", VStr "Tobie"); ("tags", VList [VNone; VInt 3])]].

Definition transport_error : exception := Exc (Foreign "ClientConnectionError") [].

(** A client that went through [connect()] in a fresh world. *)
Definition connected_in (replies : list Reply) : Ran value :=
  connect (__init__ "ws://127.0.0.1:8000/rpc") (world_of (Gives VNone :: replies)).

(** A client that was connected and then closed, both without a
    transport failure. *)
Definition closed_client : Ran value :=
  close (self (connected_in [Gives VNone; Gives VNone; Gives VNone]))
        (world (connected_in [Gives VNone; Gives VNone; Gives VNone])).

(** A client that connected and signed in, the server answering with
    the token "tok": what the run below leaves behind, evaluated. *)
Definition signed_in : Ran value := Eval vm_compute in
    @run strict (Signin (VDict [("user", VStr "root"); ("pass", VStr "root")]))
      (self (connected_in [Gives VNone; Gives (success_frame "1" (VStr "tok"));
                           Gives VNone; Gives (error_frame 100 "bad auth")]))
      (world (connected_in [Gives VNone; Gives (success_frame "1" (VStr "tok"));
                            Gives VNone; Gives (error_frame 100 "bad auth")])).

(** * Properties *)

Section Properties.
Context `{Pydantic}.

Ltac unfold_method :=
  unfold use, signup, signin, invalidate, authenticate, let_, set, query,
    select, create, update, merge, patch, delete, info, live, ping, kill.

Lemma bind_return {A B : Type} (m : Prog A) (k : A -> Prog B)
    (s s' : Surreal) (w w' : World) (a : A) :
  m s w = {| result := Return a; self := s'; world := w' |} ->
  bind m k s w = k a s' w'.
Proof. intros E. unfold bind. rewrite E. reflexivity. Qed.

Lemma bind_raise {A B : Type} (m : Prog A) (k : A -> Prog B)
    (s s' : Surreal) (w w' : World) (e : exception) :
  m s w = {| result := Raise e; self := s'; world := w' |} ->
  bind m k s w = {| result := Raise e; self := s'; world := w' |}.
Proof. intros E. unfold bind. rewrite E. reflexivity. Qed.

(** ** Calls outside the connected state *)

Definition not_connected : exception :=
  Exc SurrealException [VStr "Not connected to Surreal server."].

Lemma _validate_connection_rejects (s : Surreal) (w : World) :
  client_state s <> CONNECTED ->
  _validate_connection s w = {| result := Raise not_connected; self := s; world := w |}.
Proof.
  intros Hs. unfold _validate_connection, bind, get_self. cbn.
  destruct (client_state s); [reflexivity | congruence | reflexivity].
Qed.

Lemma _validate_connection_accepts (s : Surreal) (w : World) :
  client_state s = CONNECTED ->
  _validate_connection s w = {| result := Return tt; self := s; world := w |}.
Proof.
  intros Hs. unfold _validate_connection, bind, get_self. cbn.
  rewrite Hs. reflexivity.
Qed.

Lemma _send_receive_rejects (request : Request) (s : Surreal) (w : World) :
  client_state s <> CONNECTED ->
  _send_receive request s w = {| result := Raise not_connected; self := s; world := w |}.
Proof.
  intros Hs. unfold _send_receive, _send, bind.
  rewrite (_validate_connection_rejects s w Hs). reflexivity.
Qed.

(** The world after one uuid has been drawn. *)
Definition after_uuid (w : World) : World :=
  {| entropy := entropy w; drawn := S (drawn w); peer := peer w;
     calls := calls w; objects := objects w |}.

Lemma run_rejects (c : Rpc) (s : Surreal) (w : World) :
  client_state s <> CONNECTED ->
  run c s w = {| result := Raise not_connected; self := s; world := after_uuid w |}.
Proof.
  intros Hne.
  destruct c; cbn [run]; unfold_method;
    unfold bind at 1; cbn [generate_uuid result self world];
    unfold bind at 1; fold (after_uuid w);
    rewrite (_send_receive_rejects _ _ _ Hne); reflexivity.
Qed.

(** C1. Every RPC method called on a client whose state is CONNECTING or
    DISCONNECTED raises [SurrealException("Not connected to Surreal
    server.")]; the transport is not invoked (no send, no receive: the
    record of transport calls is unchanged) and the client object is
    unchanged. *)
Theorem rpc_outside_connected_fails (c : Rpc) (s : Surreal) (w : World) :
  client_state s = CONNECTING \/ client_state s = DISCONNECTED ->
  result (run c s w) = Raise not_connected
  /\ calls (world (run c s w)) = calls w
  /\ self (run c s w) = s.
Proof.
  intros Hs.
  assert (Hne : client_state s <> CONNECTED)
    by (destruct Hs as [E | E]; rewrite E; discriminate).
  rewrite (run_rejects c s w Hne). repeat split.
Qed.

(** ** One exchange with the server *)

(** The world after one more transport invocation. *)
Definition called (i : Invocation) (w : World) : World :=
  {| entropy := entropy w; drawn := drawn w; peer := peer w;
     calls := i :: calls w; objects := objects w |}.

(** The last three lines of [_recv], as a function of the frame that
    [receive_json] returned. *)
Definition decode (response : value) : outcome Response :=
  match response with
  | VDict entries =>
      match lookup "error" entries with
      | Some err =>
          if truthy err then
            match err with
            | VDict kwargs =>
                match ResponseError_new kwargs with
                | Return e => Return (Error e)
                | Raise x => Raise x
                end
            | _ => Raise (Exc TypeError [])
            end
          else
            match ResponseSuccess_new entries with
            | Return r => Return (Success r)
            | Raise x => Raise x
            end
      | None =>
          match ResponseSuccess_new entries with
          | Return r => Return (Success r)
          | Raise x => Raise x
          end
      end
  | _ => Raise (Exc AttributeError [])
  end.

Lemma invoke_gives (i : Invocation) (s : Surreal) (w : World) (v : value) :
  peer w (length (calls w)) = Gives v ->
  invoke i s w = {| result := Return v; self := s; world := called i w |}.
Proof. intros Hp. unfold invoke. rewrite Hp. reflexivity. Qed.

Lemma invoke_fails (i : Invocation) (s : Surreal) (w : World) (e : exception) :
  peer w (length (calls w)) = Fails e ->
  invoke i s w = {| result := Raise e; self := s; world := called i w |}.
Proof. intros Hp. unfold invoke. rewrite Hp. reflexivity. Qed.

Lemma invoke_self (i : Invocation) (s : Surreal) (w : World) :
  self (invoke i s w) = s.
Proof. unfold invoke. destruct (peer w (length (calls w))); reflexivity. Qed.

Lemma assert_ws_holds (s : Surreal) (w : World) (h : handle) :
  ws s = Some h ->
  assert_ws s w = {| result := Return h; self := s; world := w |}.
Proof. intros Hw. unfold assert_ws, bind, get_self. cbn. rewrite Hw. reflexivity. Qed.

Lemma _send_gives (request : Request) (s : Surreal) (w : World) (h : handle) (v : value) :
  client_state s = CONNECTED -> ws s = Some h ->
  peer w (length (calls w)) = Gives v ->
  _send request s w =
    {| result := Return tt; self := s;
       world := called (send_json h (Request_dict request)) w |}.
Proof.
  intros Hs Hw Hp. unfold _send.
  unfold bind at 1. rewrite (_validate_connection_accepts s w Hs). cbn [result self world].
  unfold bind at 1. rewrite (assert_ws_holds s w h Hw). cbn [result self world].
  unfold bind at 1. rewrite (invoke_gives _ s w v Hp). reflexivity.
Qed.

Lemma _send_fails (request : Request) (s : Surreal) (w : World) (h : handle) (e : exception) :
  client_state s = CONNECTED -> ws s = Some h ->
  peer w (length (calls w)) = Fails e ->
  _send request s w =
    {| result := Raise e; self := s;
       world := called (send_json h (Request_dict request)) w |}.
Proof.
  intros Hs Hw Hp. unfold _send.
  unfold bind at 1. rewrite (_validate_connection_accepts s w Hs). cbn [result self world].
  unfold bind at 1. rewrite (assert_ws_holds s w h Hw). cbn [result self world].
  unfold bind at 1. rewrite (invoke_fails _ s w e Hp). reflexivity.
Qed.

Lemma _recv_gives (s : Surreal) (w : World) (h : handle) (frame : value) :
  client_state s = CONNECTED -> ws s = Some h ->
  peer w (length (calls w)) = Gives frame ->
  _recv s w =
    {| result := decode frame; self := s; world := called (receive_json h) w |}.
Proof.
  intros Hs Hw Hp. unfold _recv.
  unfold bind at 1. rewrite (_validate_connection_accepts s w Hs). cbn [result self world].
  unfold bind at 1. rewrite (assert_ws_holds s w h Hw). cbn [result self world].
  unfold bind at 1. rewrite (invoke_gives _ s w frame Hp). cbn [result self world].
  unfold decode.
  destruct frame as [| | | | | | entries]; try reflexivity.
  destruct (lookup "error" entries) as [err |].
  - destruct (truthy err).
    + destruct err as [| | | | | | kwargs]; try reflexivity.
      unfold bind, lift. destruct (ResponseError_new kwargs); reflexivity.
    + unfold bind, lift. destruct (ResponseSuccess_new entries); reflexivity.
  - unfold bind, lift. destruct (ResponseSuccess_new entries); reflexivity.
Qed.

(** A whole exchange: the request goes out, the next frame comes in. *)
Lemma _send_receive_gives (request : Request) (s : Surreal) (w : World)
    (h : handle) (v frame : value) :
  client_state s = CONNECTED -> ws s = Some h ->
  peer w (length (calls w)) = Gives v ->
  peer w (S (length (calls w))) = Gives frame ->
  _send_receive request s w =
    {| result := decode frame; self := s;
       world := called (receive_json h) (called (send_json h (Request_dict request)) w) |}.
Proof.
  intros Hs Hw Hp Hq. unfold _send_receive.
  unfold bind at 1. rewrite (_send_gives request s w h v Hs Hw Hp). cbn [result self world].
  apply _recv_gives; assumption.
Qed.

(** Programs that leave the client object as they found it, whether
    they return or raise. *)
Definition keeps_self {A : Type} (m : Prog A) : Prop :=
  forall s w, self (m s w) = s.

Lemma keeps_self_ret {A : Type} (a : A) : keeps_self (ret a).
Proof. intros s w. reflexivity. Qed.

Lemma keeps_self_raise {A : Type} (e : exception) : keeps_self (@raise A e).
Proof. intros s w. reflexivity. Qed.

Lemma keeps_self_lift {A : Type} (o : outcome A) : keeps_self (lift o).
Proof. intros s w. destruct o; reflexivity. Qed.

Lemma keeps_self_get_self : keeps_self get_self.
Proof. intros s w. reflexivity. Qed.

Lemma keeps_self_generate_uuid : keeps_self generate_uuid.
Proof. intros s w. reflexivity. Qed.

Lemma keeps_self_invoke (i : Invocation) : keeps_self (invoke i).
Proof. intros s w. apply invoke_self. Qed.

Lemma keeps_self_bind {A B : Type} (m : Prog A) (k : A -> Prog B) :
  keeps_self m -> (forall a, keeps_self (k a)) -> keeps_self (bind m k).
Proof.
  intros Hm Hk s w. unfold bind.
  destruct (result (m s w)) as [a | e] eqn:E.
  - rewrite Hk. apply Hm.
  - cbn. apply Hm.
Qed.

Lemma keeps_self__validate_connection : keeps_self _validate_connection.
Proof.
  apply keeps_self_bind; [apply keeps_self_get_self |].
  intros s. destruct (negb _); [apply keeps_self_raise | apply keeps_self_ret].
Qed.

Lemma keeps_self_assert_ws : keeps_self assert_ws.
Proof.
  apply keeps_self_bind; [apply keeps_self_get_self |].
  intros s. destruct (ws s); [apply keeps_self_ret | apply keeps_self_raise].
Qed.

Lemma keeps_self__send (request : Request) : keeps_self (_send request).
Proof.
  unfold _send.
  apply keeps_self_bind; [apply keeps_self__validate_connection | intros _].
  apply keeps_self_bind; [apply keeps_self_assert_ws | intros h].
  apply keeps_self_bind; [apply keeps_self_invoke | intros _].
  apply keeps_self_ret.
Qed.

Lemma keeps_self__recv : keeps_self _recv.
Proof.
  unfold _recv.
  apply keeps_self_bind; [apply keeps_self__validate_connection | intros _].
  apply keeps_self_bind; [apply keeps_self_assert_ws | intros h].
  apply keeps_self_bind; [apply keeps_self_invoke | intros response].
  destruct response as [| | | | | | entries]; try apply keeps_self_raise.
  assert (Hs : keeps_self (r <- lift (ResponseSuccess_new entries) ;; ret (Success r))).
  { apply keeps_self_bind; [apply keeps_self_lift | intros r; apply keeps_self_ret]. }
  destruct (lookup "error" entries) as [err |]; [| exact Hs].
  destruct (truthy err); [| exact Hs].
  destruct err as [| | | | | | kwargs]; try apply keeps_self_raise.
  apply keeps_self_bind; [apply keeps_self_lift | intros r; apply keeps_self_ret].
Qed.

(** No exchange, however it ends, changes the client object. *)
Lemma keeps_self__send_receive (request : Request) :
  keeps_self (_send_receive request).
Proof.
  unfold _send_receive.
  apply keeps_self_bind; [apply keeps_self__send | intros _; apply keeps_self__recv].
Qed.

(** ** The eighteen methods in one shape *)

(** The request each method builds, given the uuid it drew. *)
Definition request_of (c : Rpc) (i : string) : Request :=
  match c with
  | Use n d => Request_new i "use" (Some [VStr n; VStr d])
  | Signup v => Request_new i "signup" (Some [v])
  | Signin v => Request_new i "signin" (Some [v])
  | Invalidate => Request_new i "invalidate" None
  | Authenticate t => Request_new i "authenticate" (Some [VStr t])
  | Let k v => Request_new i "let" (Some [VStr k; v])
  | Set_ k v => Request_new i "let" (Some [VStr k; v])
  | Query q v =>
      Request_new i "query" (Some (if is_None v then [VStr q] else [VStr q; v]))
  | Select t => Request_new i "select" (Some [VStr t])
  | Create t d =>
      Request_new i "create" (Some (if is_None d then [VStr t] else [VStr t; d]))
  | Update t d =>
      Request_new i "update" (Some (if is_None d then [VStr t] else [VStr t; d]))
  | Merge t d =>
      Request_new i "change" (Some (if is_None d then [VStr t] else [VStr t; d]))
  | Patch t d =>
      Request_new i "modify" (Some (if is_None d then [VStr t] else [VStr t; d]))
  | Delete t => Request_new i "delete" (Some [VStr t])
  | Info => Request_new i "info" None
  | Live t => Request_new i "live" (Some [VStr t])
  | Ping => Request_new i "ping" None
  | Kill q => Request_new i "kill" (Some [VStr q])
  end.

Definition with_token (t : value) (s : Surreal) : Surreal :=
  {| url := url s; client_state := client_state s; token := t;
     session := session s; ws := ws s |}.

(** What a method does once its exchange is over. *)
Definition conclude (c : Rpc) (x : Ran Response) : Ran value :=
  match result x with
  | Raise e => {| result := Raise e; self := self x; world := world x |}
  | Return (Error e) =>
      {| result := Raise (Exc (raised_class c) [VStr (re_message e)]);
         self := self x; world := world x |}
  | Return (Success r) =>
      {| result := Return (if returns_result c then rs_result r else VNone);
         self := match c with
                 | Signup _ | Signin _ => with_token (rs_result r) (self x)
                 | Invalidate => with_token VNone (self x)
                 | _ => self x
                 end;
         world := world x |}
  end.

Lemma run_conclude (c : Rpc) (s : Surreal) (w : World) :
  run c s w =
  conclude c (_send_receive (request_of c (entropy w (drawn w))) s (after_uuid w)).
Proof.
  destruct c; cbn [run request_of]; unfold_method;
    unfold bind at 1; cbn [generate_uuid result self world]; fold (after_uuid w);
    unfold bind at 1; unfold conclude;
    match goal with
    | |- context [_send_receive ?q s (after_uuid w)] =>
        destruct (_send_receive q s (after_uuid w)) as [[[r | e] | x] s' w']
    end; reflexivity.
Qed.

Lemma decode_error (entries err : list (string * value)) (code : Z) (message : string) :
  lookup "error" entries = Some (VDict err) ->
  lookup "code" err = Some (VInt code) ->
  lookup "message" err = Some (VStr message) ->
  decode (VDict entries) = Return (Error {| re_code := code; re_message := message |}).
Proof.
  intros He Hc Hm. unfold decode. rewrite He.
  destruct err as [| kv err']; [discriminate |].
  cbn [truthy]. unfold ResponseError_new. rewrite Hc, Hm. reflexivity.
Qed.

(** The error field taken as absent by [_recv]: missing or falsy. *)
Definition no_error (entries : list (string * value)) : Prop :=
  lookup "error" entries = None
  \/ exists err, lookup "error" entries = Some err /\ truthy err = false.

Lemma decode_no_error (entries : list (string * value)) :
  no_error entries ->
  decode (VDict entries) =
    match ResponseSuccess_new entries with
    | Return r => Return (Success r)
    | Raise x => Raise x
    end.
Proof.
  intros [Hn | [err [He Ht]]]; unfold decode.
  - rewrite Hn. reflexivity.
  - rewrite He, Ht. reflexivity.
Qed.

Lemma decode_success (entries : list (string * value)) (i : string) :
  no_error entries ->
  lookup "id" entries = Some (VStr i) ->
  decode (VDict entries) =
    Return (Success {| rs_id := i;
                       rs_result := match lookup "result" entries with
                                    | Some r => r
                                    | None => VNone
                                    end |}).
Proof.
  intros Hn Hi. rewrite (decode_no_error entries Hn).
  unfold ResponseSuccess_new. rewrite Hi. reflexivity.
Qed.

Lemma decode_Error_inv (frame : value) (e : ResponseError) :
  decode frame = Return (Error e) ->
  exists entries kwargs,
    frame = VDict entries
    /\ lookup "error" entries = Some (VDict kwargs)
    /\ truthy (VDict kwargs) = true
    /\ ResponseError_new kwargs = Return e.
Proof.
  unfold decode. intros Hd.
  destruct frame as [| | | | | | entries]; try discriminate.
  destruct (lookup "error" entries) as [err |] eqn:He.
  - destruct (truthy err) eqn:Ht.
    + destruct err as [| | | | | | kwargs]; try discriminate.
      destruct (ResponseError_new kwargs) as [e' | x] eqn:Hn; [| discriminate].
      exists entries, kwargs. repeat split; try assumption. congruence.
    + destruct (ResponseSuccess_new entries); discriminate.
  - destruct (ResponseSuccess_new entries); discriminate.
Qed.

(** An exchange in the connected state whose send is accepted and whose
    next inbound frame is [frame]. *)
Lemma run_gives (c : Rpc) (s : Surreal) (w : World) (h : handle) (v frame : value) :
  client_state s = CONNECTED -> ws s = Some h ->
  peer w (length (calls w)) = Gives v ->
  peer w (S (length (calls w))) = Gives frame ->
  run c s w =
    conclude c
      {| result := decode frame; self := s;
         world := called (receive_json h)
                    (called (send_json h (Request_dict (request_of c (entropy w (drawn w)))))
                       (after_uuid w)) |}.
Proof.
  intros Hs Hw Hp Hq. rewrite run_conclude.
  rewrite (_send_receive_gives _ s (after_uuid w) h v frame Hs Hw Hp Hq).
  reflexivity.
Qed.

Lemma conclude_world (c : Rpc) (x : Ran Response) :
  world (conclude c x) = world x.
Proof. unfold conclude. destruct (result x) as [[r | e] | e]; reflexivity. Qed.

(** In the connected state [_recv] makes exactly one transport call,
    whatever comes of it. *)
Lemma _recv_world (s : Surreal) (w : World) (h : handle) :
  client_state s = CONNECTED -> ws s = Some h ->
  world (_recv s w) = called (receive_json h) w.
Proof.
  intros Hs Hw.
  destruct (peer w (length (calls w))) as [frame | e] eqn:Hp.
  - rewrite (_recv_gives s w h frame Hs Hw Hp). reflexivity.
  - unfold _recv.
    unfold bind at 1. rewrite (_validate_connection_accepts s w Hs). cbn [result self world].
    unfold bind at 1. rewrite (assert_ws_holds s w h Hw). cbn [result self world].
    unfold bind at 1. rewrite (invoke_fails _ s w e Hp). reflexivity.
Qed.

(** ** Server errors *)

(** C2, as amended. For every server error response (a frame whose error
    field holds an integer code and a string message) the exception
    raised has the class chosen by the method:
    [SurrealAuthenticationException] for signup, signin, invalidate and
    authenticate, [SurrealPermissionException] for let, set, create,
    update, merge, patch and delete, and plain [SurrealException] for the
    rest, kill included.  Its only argument is the server's message,
    verbatim; the code is not carried. *)
Theorem server_error_raised_by_context (c : Rpc) (s : Surreal) (w : World)
    (h : handle) (v : value) (entries err : list (string * value))
    (code : Z) (message : string) :
  client_state s = CONNECTED -> ws s = Some h ->
  peer w (length (calls w)) = Gives v ->
  peer w (S (length (calls w))) = Gives (VDict entries) ->
  lookup "error" entries = Some (VDict err) ->
  lookup "code" err = Some (VInt code) ->
  lookup "message" err = Some (VStr message) ->
  result (run c s w) = Raise (Exc (raised_class c) [VStr message])
  /\ raised_class c =
       match c with
       | Signup _ | Signin _ | Invalidate | Authenticate _ =>
           SurrealAuthenticationException
       | Let _ _ | Set_ _ _ | Create _ _ | Update _ _ | Merge _ _ | Patch _ _
       | Delete _ =>
           SurrealPermissionException
       | Use _ _ | Query _ _ | Select _ | Info | Live _ | Ping | Kill _ =>
           SurrealException
       end.
Proof.
  intros Hs Hw Hp Hq He Hc Hm. split; [| reflexivity].
  rewrite (run_gives c s w h v _ Hs Hw Hp Hq).
  unfold conclude. cbn [result].
  rewrite (decode_error entries err code message He Hc Hm). reflexivity.
Qed.

(** ** Parsing the inbound frame *)

(** C3, as amended. A received frame (a JSON object) is parsed as an Error
    response only if its error field is present and truthy; when that field
    is a mapping with an integer code and a string message the frame parses
    to Error with that code and message.  A frame whose error field is
    missing or falsy goes to the Success parser: with a string id it parses
    to Success with that id and the frame's result ([None] when there is
    none), and without an id the parse raises a validation error. *)
Theorem frame_parsed_by_truthy_error_field (s : Surreal) (w : World) (h : handle)
    (entries : list (string * value)) :
  client_state s = CONNECTED -> ws s = Some h ->
  peer w (length (calls w)) = Gives (VDict entries) ->
  (forall e, result (_recv s w) = Return (Error e) ->
     exists err, lookup "error" entries = Some err /\ truthy err = true)
  /\ (forall err code message,
        lookup "error" entries = Some (VDict err) ->
        lookup "code" err = Some (VInt code) ->
        lookup "message" err = Some (VStr message) ->
        result (_recv s w)
        = Return (Error {| re_code := code; re_message := message |}))
  /\ (forall i,
        no_error entries -> lookup "id" entries = Some (VStr i) ->
        result (_recv s w)
        = Return (Success {| rs_id := i;
                             rs_result := match lookup "result" entries with
                                          | Some r => r
                                          | None => VNone
                                          end |}))
  /\ (no_error entries -> lookup "id" entries = None ->
      result (_recv s w) = Raise validation_error).
Proof.
  intros Hs Hw Hp. rewrite (_recv_gives s w h _ Hs Hw Hp). cbn [result].
  repeat split.
  - intros e Hd. apply decode_Error_inv in Hd.
    destruct Hd as [entries' [kwargs [Hf [He [Ht _]]]]].
    injection Hf as <-. exists (VDict kwargs). split; assumption.
  - intros err code message He Hc Hm. apply (decode_error _ err); assumption.
  - intros i Hn Hi. apply decode_success; assumption.
  - intros Hn Hi. rewrite (decode_no_error entries Hn).
    unfold ResponseSuccess_new. rewrite Hi. reflexivity.
Qed.

(** ** Results *)

(** C6, as amended. For every successful exchange in the connected state
    started by signup, signin, let, set, query, select, create, update,
    merge, patch, delete, info, live, ping or kill, the result of the
    inbound success frame is returned unchanged: if the next frame has no
    (truthy) error field, a string id and result R, the call returns
    exactly R.  use, invalidate and authenticate return [None] whatever R
    is. *)
Theorem success_result_returned (c : Rpc) (s : Surreal) (w : World)
    (h : handle) (v : value) (entries : list (string * value))
    (X : string) (R : value) :
  client_state s = CONNECTED -> ws s = Some h ->
  peer w (length (calls w)) = Gives v ->
  peer w (S (length (calls w))) = Gives (VDict entries) ->
  no_error entries ->
  lookup "id" entries = Some (VStr X) ->
  lookup "result" entries = Some R ->
  result (run c s w) = Return (if returns_result c then R else VNone)
  /\ returns_result c =
       match c with
       | Use _ _ | Invalidate | Authenticate _ => false
       | _ => true
       end.
Proof.
  intros Hs Hw Hp Hq Hn Hi Hr. split; [| reflexivity].
  rewrite (run_gives c s w h v _ Hs Hw Hp Hq).
  unfold conclude. cbn [result].
  rewrite (decode_success entries X Hn Hi), Hr. reflexivity.
Qed.

(** ** Requests *)

(** C7. A [Request] built with absent ([None]) params holds the empty
    sequence, and the serialized envelope of any request carries a params
    list; ping in the connected state sends
    [{"id": <uuid>, "method": "ping", "params": []}] as its first transport
    call, followed only by the receive when the send was accepted. *)
Theorem absent_params_empty_list (s : Surreal) (w : World) (h : handle) :
  client_state s = CONNECTED -> ws s = Some h ->
  (forall i m, req_params (Request_new i m None) = []
     /\ Request_dict (Request_new i m None)
        = VDict [("id", VStr i); ("method", VStr m); ("params", VList [])])
  /\ (forall request, exists ps,
        Request_dict request
        = VDict [("id", VStr (req_id request)); ("method", VStr (req_method request));
                 ("params", VList ps)])
  /\ (let sent := send_json h (VDict [("id", VStr (entropy w (drawn w)));
                                      ("method", VStr "ping"); ("params", VList [])]) in
      calls (world (ping s w))
      = match peer w (length (calls w)) with
        | Gives _ => receive_json h :: sent :: calls w
        | Fails _ => sent :: calls w
        end).
Proof.
  intros Hs Hw. split; [| split].
  - intros i m. split; reflexivity.
  - intros request. exists (req_params request). reflexivity.
  - cbv zeta. change (ping s w) with (run Ping s w).
    rewrite run_conclude, conclude_world. cbn [request_of].
    unfold _send_receive. unfold bind at 1.
    destruct (peer w (length (calls w))) as [v | e] eqn:Hp.
    + rewrite (_send_gives _ s (after_uuid w) h v Hs Hw Hp). cbn [result self world].
      rewrite (_recv_world s _ h Hs Hw). reflexivity.
    + rewrite (_send_fails _ s (after_uuid w) h e Hs Hw Hp). reflexivity.
Qed.

(** ** What [close()] rebinds *)

(** Programs that leave one attribute of the client as they found it. *)
Definition preserves {A B : Type} (f : Surreal -> B) (m : Prog A) : Prop :=
  forall s w, f (self (m s w)) = f s.

Lemma preserves_keeps {A B : Type} (f : Surreal -> B) (m : Prog A) :
  keeps_self m -> preserves f m.
Proof. intros Hk s w. rewrite Hk. reflexivity. Qed.

Lemma preserves_bind {A B C : Type} (f : Surreal -> C) (m : Prog A) (k : A -> Prog B) :
  preserves f m -> (forall a, preserves f (k a)) -> preserves f (bind m k).
Proof.
  intros Hm Hk s w. unfold bind.
  destruct (result (m s w)) as [a | e].
  - rewrite Hk. apply Hm.
  - cbn. apply Hm.
Qed.

Lemma close_preserves {B : Type} (f : Surreal -> B) :
  (forall c, preserves f (set_client_state c)) -> preserves f close.
Proof.
  intros Hf. unfold close.
  apply preserves_bind; [apply preserves_keeps, keeps_self_get_self | intros s0].
  apply preserves_bind.
  { destruct (ws s0); [| apply preserves_keeps, keeps_self_ret].
    apply preserves_bind; [apply preserves_keeps, keeps_self_invoke | intros _].
    apply preserves_keeps, keeps_self_ret. }
  intros _. apply preserves_bind.
  { destruct (session s0); [| apply preserves_keeps, keeps_self_ret].
    apply preserves_bind; [apply preserves_keeps, keeps_self_invoke | intros _].
    apply preserves_keeps, keeps_self_ret. }
  intros _. apply preserves_bind; [apply Hf | intros _].
  apply preserves_keeps, keeps_self_ret.
Qed.

(** ** The cached token *)

(** C8. The cached token is written only by the auth flow: a successful
    signup or signin sets it to the result of the success response (which
    is also what the call returns), a successful invalidate clears it to
    [None], every other RPC call leaves it unchanged, and so does
    [close()]; a call that raises, auth or not, leaves it unchanged.
    The same read off the exchange: a success response makes signup and
    signin store its result and invalidate store [None]; an error
    response, and an exchange that raised, make every method raise and
    keep the token; in particular a success frame with result R leaves
    the token R after signup or signin, and an error frame leaves the
    token as it was after invalidate. *)
Theorem token_written_only_by_auth_flow (c : Rpc) (s : Surreal) (w : World) :
  match result (run c s w) with
  | Raise _ => token (self (run c s w)) = token s
  | Return v =>
      match c with
      | Signup _ | Signin _ =>
          token (self (run c s w)) = v
          /\ exists r,
               result (_send_receive (request_of c (entropy w (drawn w))) s (after_uuid w))
               = Return (Success r)
               /\ v = rs_result r
      | Invalidate => token (self (run c s w)) = VNone
      | _ => token (self (run c s w)) = token s
      end
  end
  /\ token (self (close s w)) = token s
  /\ match result (_send_receive (request_of c (entropy w (drawn w))) s (after_uuid w)) with
     | Return (Success r) =>
         result (run c s w) = Return (if returns_result c then rs_result r else VNone)
         /\ token (self (run c s w))
            = match c with
              | Signup _ | Signin _ => rs_result r
              | Invalidate => VNone
              | _ => token s
              end
     | Return (Error e) =>
         result (run c s w) = Raise (Exc (raised_class c) [VStr (re_message e)])
         /\ token (self (run c s w)) = token s
     | Raise e =>
         result (run c s w) = Raise e /\ token (self (run c s w)) = token s
     end
  /\ (forall h v entries X R,
        client_state s = CONNECTED -> ws s = Some h ->
        peer w (length (calls w)) = Gives v ->
        peer w (S (length (calls w))) = Gives (VDict entries) ->
        no_error entries ->
        lookup "id" entries = Some (VStr X) ->
        lookup "result" entries = Some R ->
        result (run c s w) = Return (if returns_result c then R else VNone)
        /\ token (self (run c s w))
           = match c with
             | Signup _ | Signin _ => R
             | Invalidate => VNone
             | _ => token s
             end)
  /\ (forall h v entries err code message,
        client_state s = CONNECTED -> ws s = Some h ->
        peer w (length (calls w)) = Gives v ->
        peer w (S (length (calls w))) = Gives (VDict entries) ->
        lookup "error" entries = Some (VDict err) ->
        lookup "code" err = Some (VInt code) ->
        lookup "message" err = Some (VStr message) ->
        result (run c s w) = Raise (Exc (raised_class c) [VStr message])
        /\ token (self (run c s w)) = token s).
Proof.
  assert (Hx : match result (_send_receive (request_of c (entropy w (drawn w)))
                              s (after_uuid w)) with
               | Return (Success r) =>
                   result (run c s w)
                   = Return (if returns_result c then rs_result r else VNone)
                   /\ token (self (run c s w))
                      = match c with
                        | Signup _ | Signin _ => rs_result r
                        | Invalidate => VNone
                        | _ => token s
                        end
               | Return (Error e) =>
                   result (run c s w)
                   = Raise (Exc (raised_class c) [VStr (re_message e)])
                   /\ token (self (run c s w)) = token s
               | Raise e =>
                   result (run c s w) = Raise e /\ token (self (run c s w)) = token s
               end).
  { rewrite run_conclude.
    pose proof (keeps_self__send_receive (request_of c (entropy w (drawn w)))
                  s (after_uuid w)) as Hk.
    destruct (_send_receive (request_of c (entropy w (drawn w))) s (after_uuid w))
      as [o s' w'].
    cbn [self] in Hk. subst s'. unfold conclude. cbn [result self world].
    destruct o as [[r | e] | e]; cbn [result self]; try (split; reflexivity).
    destruct c; split; reflexivity. }
  split; [| split; [| split; [exact Hx | split]]].
  - rewrite run_conclude.
    pose proof (keeps_self__send_receive (request_of c (entropy w (drawn w))) s (after_uuid w))
      as Hk.
    destruct (_send_receive (request_of c (entropy w (drawn w))) s (after_uuid w))
      as [o s' w'].
    cbn [self] in Hk. subst s'. unfold conclude. cbn [result self world].
    destruct o as [[r | e] | e]; cbn [result self]; try reflexivity.
    destruct c; cbn [returns_result with_token token]; try reflexivity;
      (split; [reflexivity | exists r; split; reflexivity]).
  - apply close_preserves. intros c0 s0 w0. reflexivity.
  - intros h v entries X R Hs Hw Hp Hq Hn Hi Hr.
    rewrite (_send_receive_gives _ s (after_uuid w) h v _ Hs Hw Hp Hq) in Hx.
    cbn [result] in Hx. rewrite (decode_success entries X Hn Hi), Hr in Hx.
    exact Hx.
  - intros h v entries err code message Hs Hw Hp Hq He Hc Hm.
    rewrite (_send_receive_gives _ s (after_uuid w) h v _ Hs Hw Hp Hq) in Hx.
    cbn [result] in Hx. rewrite (decode_error entries err code message He Hc Hm) in Hx.
    exact Hx.
Qed.

(** C10. [set] is an exact alias of [let]: for every key, value, client
    and world (hence every connection state and every server response) the
    two runs coincide in what they return or raise, in the client left
    behind and in the transport calls made; both build the request
    [let(key, value)] and both raise [SurrealPermissionException] on an
    error response. *)
Theorem set_is_let (key : string) (val : value) (s : Surreal) (w : World) :
  set key val s w = let_ key val s w
  /\ (forall i, request_of (Set_ key val) i = request_of (Let key val) i
        /\ Request_dict (request_of (Set_ key val) i)
           = VDict [("id", VStr i); ("method", VStr "let");
                    ("params", VList [VStr key; val])])
  /\ raised_class (Set_ key val) = SurrealPermissionException
  /\ raised_class (Let key val) = SurrealPermissionException
  /\ run (Set_ key val) s w
     = conclude (Set_ key val)
         (_send_receive (request_of (Set_ key val) (entropy w (drawn w))) s (after_uuid w)).
Proof.
  split; [reflexivity |]. split; [intros i; split; reflexivity |].
  split; [reflexivity |]. split; [reflexivity |]. apply run_conclude.
Qed.

(** ** Connection lifecycle *)

Definition with_state (c : ConnectionState) (s : Surreal) : Surreal :=
  {| url := url s; client_state := c; token := token s;
     session := session s; ws := ws s |}.

(** The next [k] transport calls all return normally. *)
Definition quiet_for (k : nat) (w : World) : Prop :=
  forall n, n < k -> exists v, peer w (length (calls w) + n) = Gives v.

Lemma connect_gives_run (s : Surreal) (w : World) (v : value) :
  peer w (length (calls w)) = Gives v ->
  connect s w =
    {| result := Return VNone;
       self := {| url := url s; client_state := CONNECTED; token := token s;
                  session := Some (objects w); ws := Some (S (objects w)) |};
       world := {| entropy := entropy w; drawn := drawn w; peer := peer w;
                   calls := ws_connect (objects w) (url s) :: calls w;
                   objects := S (S (objects w)) |} |}.
Proof.
  intros Hp. unfold connect.
  unfold bind at 1. cbn [new_object result self world].
  unfold bind at 1. cbn [set_session result self world].
  unfold bind at 1. cbn [get_self result self world].
  unfold bind at 1. erewrite invoke_gives by exact Hp. cbn [result self world].
  reflexivity.
Qed.

Lemma connect_fails_run (s : Surreal) (w : World) (e : exception) :
  peer w (length (calls w)) = Fails e ->
  connect s w =
    {| result := Raise e;
       self := {| url := url s; client_state := client_state s; token := token s;
                  session := Some (objects w); ws := ws s |};
       world := {| entropy := entropy w; drawn := drawn w; peer := peer w;
                   calls := ws_connect (objects w) (url s) :: calls w;
                   objects := S (objects w) |} |}.
Proof.
  intros Hp. unfold connect.
  unfold bind at 1. cbn [new_object result self world].
  unfold bind at 1. cbn [set_session result self world].
  unfold bind at 1. cbn [get_self result self world].
  unfold bind at 1. erewrite invoke_fails by exact Hp. cbn [result self world].
  reflexivity.
Qed.



(** [close()] rebinds nothing but [client_state]. *)
Lemma close_keeps_fields (s : Surreal) (w : World) :
  url (self (close s w)) = url s
  /\ token (self (close s w)) = token s
  /\ session (self (close s w)) = session s
  /\ ws (self (close s w)) = ws s.
Proof.
  repeat split; apply close_preserves; intros c0 s0 w0; reflexivity.
Qed.

(** The two guarded transport calls of [close()]. *)
Definition close_ws (s : Surreal) : Prog unit :=
  match ws s with
  | Some h => invoke (ws_close h) ;; ret tt
  | None => ret tt
  end.

Definition close_session (s : Surreal) : Prog unit :=
  match session s with
  | Some c => invoke (session_close c) ;; ret tt
  | None => ret tt
  end.

Lemma close_unfold (s : Surreal) (w : World) :
  close s w
  = (close_ws s ;; close_session s ;; set_client_state DISCONNECTED ;; ret VNone) s w.
Proof. reflexivity. Qed.

Lemma guarded_call_gives (o : option handle) (f : handle -> Invocation)
    (s : Surreal) (w : World) (v : value) :
  peer w (length (calls w)) = Gives v ->
  exists w',
    match o with
    | Some h => invoke (f h) ;; ret tt
    | None => ret tt
    end s w = {| result := Return tt; self := s; world := w' |}
    /\ peer w' = peer w
    /\ (length (calls w') = length (calls w) \/ length (calls w') = S (length (calls w))).
Proof.
  intros Hp. destruct o as [h |].
  - exists (called (f h) w). unfold bind. rewrite (invoke_gives _ s w v Hp).
    cbn. repeat split. right. reflexivity.
  - exists w. repeat split. left. reflexivity.
Qed.

Lemma close_quiet (s : Surreal) (w : World) :
  quiet_for 2 w ->
  result (close s w) = Return VNone
  /\ self (close s w) = with_state DISCONNECTED s
  /\ peer (world (close s w)) = peer w
  /\ exists k, k <= 2 /\ length (calls (world (close s w))) = length (calls w) + k.
Proof.
  intros Hq.
  destruct (Hq 0 ltac:(lia)) as [v0 H0]. rewrite Nat.add_0_r in H0.
  destruct (Hq 1 ltac:(lia)) as [v1 H1]. rewrite Nat.add_1_r in H1.
  destruct (guarded_call_gives (ws s) ws_close s w v0 H0) as [w1 [E1 [P1 L1]]].
  assert (exists v, peer w1 (length (calls w1)) = Gives v) as [v' H'].
  { rewrite P1. destruct L1 as [L | L]; rewrite L; eauto. }
  destruct (guarded_call_gives (session s) session_close s w1 v' H') as [w2 [E2 [P2 L2]]].
  assert (E : close s w
              = {| result := Return VNone; self := with_state DISCONNECTED s;
                   world := w2 |}).
  { rewrite close_unfold. unfold close_ws, close_session.
    unfold bind at 1. rewrite E1. cbn [result self world].
    unfold bind at 1. rewrite E2. cbn [result self world].
    reflexivity. }
  rewrite E. cbn [result self world].
  split; [reflexivity |]. split; [reflexivity |].
  split; [congruence |].
  exists (length (calls w2) - length (calls w)). lia.
Qed.

Lemma close_ws_fails (s : Surreal) (w : World) (h : handle) (e : exception) :
  ws s = Some h ->
  peer w (length (calls w)) = Fails e ->
  result (close s w) = Raise e /\ self (close s w) = s.
Proof.
  intros Hw Hp.
  assert (E : close s w
              = {| result := Raise e; self := s; world := called (ws_close h) w |}).
  { rewrite close_unfold. unfold close_ws. rewrite Hw.
    apply bind_raise, bind_raise, invoke_fails, Hp. }
  rewrite E. split; reflexivity.
Qed.

Lemma close_session_fails (s : Surreal) (w : World) (c : handle) (e : exception) :
  ws s = None -> session s = Some c ->
  peer w (length (calls w)) = Fails e ->
  result (close s w) = Raise e /\ self (close s w) = s.
Proof.
  intros Hw Hc Hp.
  assert (E : close s w
              = {| result := Raise e; self := s; world := called (session_close c) w |}).
  { rewrite close_unfold. unfold close_ws, close_session.
    rewrite Hw, Hc.
    rewrite (bind_return (ret tt) _ s s w w tt eq_refl).
    apply bind_raise, bind_raise, invoke_fails, Hp. }
  rewrite E. split; reflexivity.
Qed.

Lemma guarded_gives (i : Invocation) (s : Surreal) (w : World) (v : value) :
  peer w (length (calls w)) = Gives v ->
  (invoke i ;; ret tt) s w = {| result := Return tt; self := s; world := called i w |}.
Proof.
  intros Hp. rewrite (bind_return _ _ _ _ _ _ _ (invoke_gives i s w v Hp)). reflexivity.
Qed.

Lemma guarded_fails (i : Invocation) (s : Surreal) (w : World) (e : exception) :
  peer w (length (calls w)) = Fails e ->
  (invoke i ;; ret tt) s w = {| result := Raise e; self := s; world := called i w |}.
Proof. intros Hp. apply bind_raise, invoke_fails, Hp. Qed.

(** Each guarded call of [close()] returns or raises, and leaves the
    client alone. *)
Lemma close_ws_cases (s0 s : Surreal) (w : World) :
  (exists w', close_ws s0 s w = {| result := Return tt; self := s; world := w' |})
  \/ (exists e w', close_ws s0 s w = {| result := Raise e; self := s; world := w' |}).
Proof.
  unfold close_ws. destruct (ws s0) as [h |].
  - destruct (peer w (length (calls w))) as [v | e] eqn:Hp.
    + left. eexists. apply (guarded_gives _ s w v Hp).
    + right. do 2 eexists. apply (guarded_fails _ s w e Hp).
  - left. exists w. reflexivity.
Qed.

Lemma close_session_cases (s0 s : Surreal) (w : World) :
  (exists w', close_session s0 s w = {| result := Return tt; self := s; world := w' |})
  \/ (exists e w',
        close_session s0 s w = {| result := Raise e; self := s; world := w' |}).
Proof.
  unfold close_session. destruct (session s0) as [c |].
  - destruct (peer w (length (calls w))) as [v | e] eqn:Hp.
    + left. eexists. apply (guarded_gives _ s w v Hp).
    + right. do 2 eexists. apply (guarded_fails _ s w e Hp).
  - left. exists w. reflexivity.
Qed.

(** [close()] either returns [None] with the state set to DISCONNECTED,
    or raises with the client untouched. *)
Lemma close_cases (s : Surreal) (w : World) :
  (exists w',
     close s w
     = {| result := Return VNone; self := with_state DISCONNECTED s; world := w' |})
  \/ (exists e w', close s w = {| result := Raise e; self := s; world := w' |}).
Proof.
  pose proof (close_unfold s w) as U.
  destruct (close_ws_cases s s w) as [[w1 E1] | [e [w1 E1]]].
  - destruct (close_session_cases s s w1) as [[w2 E2] | [e [w2 E2]]].
    + left. exists w2. rewrite U.
      rewrite (bind_return _ _ _ _ _ _ _ E1), (bind_return _ _ _ _ _ _ _ E2).
      reflexivity.
    + right. exists e, w2. rewrite U.
      rewrite (bind_return _ _ _ _ _ _ _ E1). apply bind_raise. exact E2.
  - right. exists e, w1. rewrite U. apply bind_raise. exact E1.
Qed.

Lemma close_session_fails_after_ws (s : Surreal) (w : World) (h c : handle)
    (v : value) (e : exception) :
  ws s = Some h -> session s = Some c ->
  peer w (length (calls w)) = Gives v ->
  peer w (S (length (calls w))) = Fails e ->
  close s w
  = {| result := Raise e; self := s;
       world := called (session_close c) (called (ws_close h) w) |}.
Proof.
  intros Hw Hc Hp Hq. rewrite close_unfold. unfold close_ws, close_session.
  rewrite Hw, Hc.
  rewrite (bind_return _ _ _ _ _ _ _ (guarded_gives (ws_close h) s w v Hp)).
  apply bind_raise, guarded_fails. exact Hq.
Qed.

(** C4, as amended. When the underlying [ws.close()] and
    [session.close()] return normally, [close()] raises nothing and leaves
    the state Disconnected, and so does a second [close()] right after it;
    an exception raised by an underlying close is not swallowed: whether
    it is the websocket's close that raises, or the session's close (with
    no websocket held, or after the websocket's close has returned), it
    propagates out of [close()] and the client, state included, is left as
    it was.  There is no other outcome: [close()] either returns [None]
    with the state Disconnected or raises with the client untouched. *)
Theorem close_disconnects_unless_transport_raises (s : Surreal) (w : World) :
  (quiet_for 2 w ->
     result (close s w) = Return VNone
     /\ client_state (self (close s w)) = DISCONNECTED)
  /\ (quiet_for 4 w ->
        result (close (self (close s w)) (world (close s w))) = Return VNone
        /\ client_state (self (close (self (close s w)) (world (close s w))))
           = DISCONNECTED)
  /\ (forall h e, ws s = Some h -> peer w (length (calls w)) = Fails e ->
        result (close s w) = Raise e /\ self (close s w) = s)
  /\ (forall c e, ws s = None -> session s = Some c ->
        peer w (length (calls w)) = Fails e ->
        result (close s w) = Raise e /\ self (close s w) = s)
  /\ (forall h c v e, ws s = Some h -> session s = Some c ->
        peer w (length (calls w)) = Gives v ->
        peer w (S (length (calls w))) = Fails e ->
        result (close s w) = Raise e /\ self (close s w) = s)
  /\ ((result (close s w) = Return VNone
       /\ self (close s w) = with_state DISCONNECTED s)
      \/ (exists e, result (close s w) = Raise e /\ self (close s w) = s)).
Proof.
  split; [| split; [| split; [| split; [| split]]]].
  - intros Hq. destruct (close_quiet s w Hq) as [Hr [Hs _]].
    split; [exact Hr | rewrite Hs; reflexivity].
  - intros Hq.
    assert (Hq2 : quiet_for 2 w) by (intros n Hn; apply Hq; lia).
    destruct (close_quiet s w Hq2) as [_ [_ [Hp [k [Hk Hl]]]]].
    assert (Hq' : quiet_for 2 (world (close s w))).
    { intros n Hn. rewrite Hp, Hl, <- Nat.add_assoc. apply Hq. lia. }
    destruct (close_quiet (self (close s w)) _ Hq') as [Hr [Hs _]].
    split; [exact Hr | rewrite Hs; reflexivity].
  - intros h e. apply close_ws_fails.
  - intros c e. apply close_session_fails.
  - intros h c v e Hw Hc Hp Hq.
    rewrite (close_session_fails_after_ws s w h c v e Hw Hc Hp Hq).
    split; reflexivity.
  - destruct (close_cases s w) as [[w' E] | [e [w' E]]]; rewrite E.
    + left. split; reflexivity.
    + right. exists e. split; reflexivity.
Qed.


End Properties.

(** * Further properties of the client *)

Section Protocol.
Context `{Pydantic}.

(** ** What goes on the wire *)

(** The method name each call puts in its envelope. *)
Definition wire_method (c : Rpc) : string :=
  match c with
  | Use _ _ => "use"
  | Signup _ => "signup"
  | Signin _ => "signin"
  | Invalidate => "invalidate"
  | Authenticate _ => "authenticate"
  | Let _ _ | Set_ _ _ => "let"
  | Query _ _ => "query"
  | Select _ => "select"
  | Create _ _ => "create"
  | Update _ _ => "update"
  | Merge _ _ => "change"
  | Patch _ _ => "modify"
  | Delete _ => "delete"
  | Info => "info"
  | Live _ => "live"
  | Ping => "ping"
  | Kill _ => "kill"
  end.

(** The params each call puts in its envelope. *)
Definition wire_params (c : Rpc) : list value :=
  match c with
  | Use n d => [VStr n; VStr d]
  | Signup v | Signin v => [v]
  | Invalidate | Info | Ping => []
  | Authenticate t => [VStr t]
  | Let k v | Set_ k v => [VStr k; v]
  | Query a d | Create a d | Update a d | Merge a d | Patch a d =>
      match d with
      | VNone => [VStr a]
      | _ => [VStr a; d]
      end
  | Select t | Delete t | Live t | Kill t => [VStr t]
  end.

Lemma request_of_wire (c : Rpc) (i : string) :
  Request_dict (request_of c i)
  = VDict [("id", VStr i); ("method", VStr (wire_method c));
           ("params", VList (wire_params c))].
Proof.
  destruct c; try reflexivity;
    match goal with v : value |- _ => destruct v; reflexivity end.
Qed.

Lemma _recv_fails (s : Surreal) (w : World) (h : handle) (e : exception) :
  client_state s = CONNECTED -> ws s = Some h ->
  peer w (length (calls w)) = Fails e ->
  _recv s w = {| result := Raise e; self := s; world := called (receive_json h) w |}.
Proof.
  intros Hs Hw Hp. unfold _recv.
  rewrite (bind_return _ _ s s w w tt (_validate_connection_accepts s w Hs)).
  rewrite (bind_return _ _ s s w w h (assert_ws_holds s w h Hw)).
  apply bind_raise, invoke_fails, Hp.
Qed.

Lemma _send_receive_send_fails (request : Request) (s : Surreal) (w : World)
    (h : handle) (e : exception) :
  client_state s = CONNECTED -> ws s = Some h ->
  peer w (length (calls w)) = Fails e ->
  _send_receive request s w =
    {| result := Raise e; self := s;
       world := called (send_json h (Request_dict request)) w |}.
Proof.
  intros Hs Hw Hp. unfold _send_receive.
  apply bind_raise, _send_fails; assumption.
Qed.

Lemma _send_receive_recv_fails (request : Request) (s : Surreal) (w : World)
    (h : handle) (v : value) (e : exception) :
  client_state s = CONNECTED -> ws s = Some h ->
  peer w (length (calls w)) = Gives v ->
  peer w (S (length (calls w))) = Fails e ->
  _send_receive request s w =
    {| result := Raise e; self := s;
       world := called (receive_json h) (called (send_json h (Request_dict request)) w) |}.
Proof.
  intros Hs Hw Hp Hq. unfold _send_receive.
  rewrite (bind_return _ _ _ _ _ _ _ (_send_gives request s w h v Hs Hw Hp)).
  apply _recv_fails; assumption.
Qed.

(** The transport calls of one RPC call in the connected state. *)
Lemma run_calls (c : Rpc) (s : Surreal) (w : World) (h : handle) :
  client_state s = CONNECTED -> ws s = Some h ->
  calls (world (run c s w))
  = match peer w (length (calls w)) with
    | Gives _ =>
        receive_json h
          :: send_json h (Request_dict (request_of c (entropy w (drawn w)))) :: calls w
    | Fails _ =>
        send_json h (Request_dict (request_of c (entropy w (drawn w)))) :: calls w
    end.
Proof.
  intros Hs Hw. rewrite run_conclude, conclude_world.
  destruct (peer w (length (calls w))) as [v | e] eqn:Hp.
  - unfold _send_receive.
    rewrite (bind_return _ _ _ _ _ _ _
               (_send_gives _ s (after_uuid w) h v Hs Hw Hp)).
    rewrite (_recv_world s _ h Hs Hw). reflexivity.
  - rewrite (_send_receive_send_fails _ s (after_uuid w) h e Hs Hw Hp). reflexivity.
Qed.

(** X1. In the connected state every RPC method makes one [send_json]
    whose payload is [{"id": i, "method": m, "params": p}], with [i] the
    uuid just drawn, [m] the wire name of the method ([merge] goes out as
    "change", [patch] as "modify", [set] as "let") and [p] its arguments;
    one [receive_json] follows when the send returned, and nothing follows
    when it raised. *)
Theorem rpc_sends_one_envelope (c : Rpc) (s : Surreal) (w : World) (h : handle) :
  client_state s = CONNECTED -> ws s = Some h ->
  calls (world (run c s w))
  = match peer w (length (calls w)) with
    | Gives _ =>
        ([receive_json h;
         send_json h (VDict [("id", VStr (entropy w (drawn w)));
                             ("method", VStr (wire_method c));
                             ("params", VList (wire_params c))])]
        ++ calls w)%list
    | Fails _ =>
        ([send_json h (VDict [("id", VStr (entropy w (drawn w)));
                             ("method", VStr (wire_method c));
                             ("params", VList (wire_params c))])]
        ++ calls w)%list
    end.
Proof.
  intros Hs Hw. rewrite (run_calls c s w h Hs Hw), request_of_wire. reflexivity.
Qed.

(** X2. [query], [create], [update], [merge] and [patch] leave their second
    argument out of the params exactly when it is [None]: any other value,
    an empty mapping included, is sent as the second param. *)
Theorem none_argument_is_omitted (c : Rpc) (m a : string) (d : value)
    (s : Surreal) (w : World) (h : handle) :
  client_state s = CONNECTED -> ws s = Some h ->
  In (c, m) [(Query a d, "query"); (Create a d, "create"); (Update a d, "update");
             (Merge a d, "change"); (Patch a d, "modify")] ->
  (d = VNone ->
   In (send_json h (VDict [("id", VStr (entropy w (drawn w))); ("method", VStr m);
                           ("params", VList [VStr a])]))
      (calls (world (run c s w))))
  /\ (d <> VNone ->
      In (send_json h (VDict [("id", VStr (entropy w (drawn w))); ("method", VStr m);
                              ("params", VList [VStr a; d])]))
         (calls (world (run c s w)))).
Proof.
  intros Hs Hw Hin.
  assert (Hsent : In (send_json h (Request_dict (request_of c (entropy w (drawn w)))))
                     (calls (world (run c s w)))).
  { rewrite (run_calls c s w h Hs Hw).
    destruct (peer w (length (calls w))); cbn [In]; auto. }
  rewrite request_of_wire in Hsent.
  cbn [In] in Hin.
  destruct Hin as [E | [E | [E | [E | [E | []]]]]];
    injection E as <- <-; cbn [wire_method wire_params] in Hsent;
    (split; [intros -> ; exact Hsent
            | intros Hd; destruct d; try exact Hsent; contradiction Hd; reflexivity]).
Qed.

(** ** Transport failures in mid-call *)

(** X3. When the transport refuses the send, the exception reaches the
    caller as it is, no receive is attempted and the client is unchanged:
    it stays Connected. *)
Theorem send_failure_propagates (c : Rpc) (s : Surreal) (w : World)
    (h : handle) (e : exception) :
  client_state s = CONNECTED -> ws s = Some h ->
  peer w (length (calls w)) = Fails e ->
  result (run c s w) = Raise e
  /\ self (run c s w) = s
  /\ exists data, calls (world (run c s w)) = send_json h data :: calls w.
Proof.
  intros Hs Hw Hp. rewrite run_conclude.
  rewrite (_send_receive_send_fails _ s (after_uuid w) h e Hs Hw Hp).
  unfold conclude. cbn [result self world].
  split; [reflexivity |]. split; [reflexivity |]. eexists. reflexivity.
Qed.

(** X4. When the send is accepted and the receive raises, the exception
    reaches the caller as it is and the client is unchanged: the state
    stays Connected and the token is what it was, for the auth calls
    too. *)
Theorem receive_failure_propagates (c : Rpc) (s : Surreal) (w : World)
    (h : handle) (v : value) (e : exception) :
  client_state s = CONNECTED -> ws s = Some h ->
  peer w (length (calls w)) = Gives v ->
  peer w (S (length (calls w))) = Fails e ->
  result (run c s w) = Raise e
  /\ self (run c s w) = s
  /\ client_state (self (run c s w)) = CONNECTED.
Proof.
  intros Hs Hw Hp Hq. rewrite run_conclude.
  rewrite (_send_receive_recv_fails _ s (after_uuid w) h v e Hs Hw Hp Hq).
  unfold conclude. cbn [result self world].
  split; [reflexivity |]. split; [reflexivity | exact Hs].
Qed.

(** ** What an RPC call leaves alone *)

Lemma run_keeps_connection (c : Rpc) (s : Surreal) (w : World) :
  client_state (self (run c s w)) = client_state s
  /\ url (self (run c s w)) = url s
  /\ session (self (run c s w)) = session s
  /\ ws (self (run c s w)) = ws s.
Proof.
  rewrite run_conclude.
  pose proof (keeps_self__send_receive (request_of c (entropy w (drawn w))) s (after_uuid w))
    as Hk.
  destruct (_send_receive (request_of c (entropy w (drawn w))) s (after_uuid w))
    as [o s' w'].
  cbn [self] in Hk. subst s'. unfold conclude. cbn [result self world].
  destruct o as [[r | e] | e]; [destruct c | |]; repeat split.
Qed.

(** X5. No RPC call, whatever its outcome (refused, failed in the
    transport, answered by an error or by a success), changes the
    connection state, the url or the transport objects of the client. *)
Theorem rpc_never_changes_connection (c : Rpc) (s : Surreal) (w : World) :
  client_state (self (run c s w)) = client_state s
  /\ url (self (run c s w)) = url s
  /\ session (self (run c s w)) = session s
  /\ ws (self (run c s w)) = ws s.
Proof. apply run_keeps_connection. Qed.

(** ** Frames that are not envelopes *)

Definition is_dict (v : value) : bool :=
  match v with VDict _ => true | _ => false end.

Lemma run_decode_raises (c : Rpc) (s : Surreal) (w : World) (h : handle)
    (v frame : value) (x : exception) :
  client_state s = CONNECTED -> ws s = Some h ->
  peer w (length (calls w)) = Gives v ->
  peer w (S (length (calls w))) = Gives frame ->
  decode frame = Raise x ->
  result (run c s w) = Raise x /\ self (run c s w) = s.
Proof.
  intros Hs Hw Hp Hq Hd. rewrite (run_gives c s w h v frame Hs Hw Hp Hq).
  unfold conclude. cbn [result self world]. rewrite Hd. split; reflexivity.
Qed.

(** X6. A frame that is valid JSON but not an object (a list, a string, a
    number, a boolean, null) makes every method raise [AttributeError],
    not a Surreal exception; the client is unchanged. *)
Theorem non_object_frame_raises_attribute_error (c : Rpc) (s : Surreal) (w : World)
    (h : handle) (v frame : value) :
  client_state s = CONNECTED -> ws s = Some h ->
  peer w (length (calls w)) = Gives v ->
  peer w (S (length (calls w))) = Gives frame ->
  is_dict frame = false ->
  result (run c s w) = Raise (Exc AttributeError []) /\ self (run c s w) = s.
Proof.
  intros Hs Hw Hp Hq Hf. apply (run_decode_raises c s w h v frame); try assumption.
  destruct frame; try reflexivity. discriminate Hf.
Qed.

(** X7. A frame whose error field is truthy but not a mapping (a
    non-empty string, a non-zero number, [true], a non-empty list) makes
    every method raise [TypeError]; the client is unchanged. *)
Theorem error_not_a_mapping_raises_type_error (c : Rpc) (s : Surreal) (w : World)
    (h : handle) (v err : value) (entries : list (string * value)) :
  client_state s = CONNECTED -> ws s = Some h ->
  peer w (length (calls w)) = Gives v ->
  peer w (S (length (calls w))) = Gives (VDict entries) ->
  lookup "error" entries = Some err ->
  truthy err = true -> is_dict err = false ->
  result (run c s w) = Raise (Exc TypeError []) /\ self (run c s w) = s.
Proof.
  intros Hs Hw Hp Hq He Ht Hd.
  apply (run_decode_raises c s w h v (VDict entries)); try assumption.
  unfold decode. rewrite He, Ht. destruct err; try reflexivity. discriminate Hd.
Qed.

(** X8. An error frame whose error mapping lacks the code or the message
    is not reported as a Surreal exception of the method's class: every
    method raises pydantic's validation error, and the message, when
    there is one, is lost; the client is unchanged. *)
Theorem incomplete_error_raises_validation_error (c : Rpc) (s : Surreal) (w : World)
    (h : handle) (v : value) (entries kv : list (string * value)) (k : string * value) :
  client_state s = CONNECTED -> ws s = Some h ->
  peer w (length (calls w)) = Gives v ->
  peer w (S (length (calls w))) = Gives (VDict entries) ->
  lookup "error" entries = Some (VDict (k :: kv)) ->
  lookup "code" (k :: kv) = None \/ lookup "message" (k :: kv) = None ->
  result (run c s w) = Raise validation_error /\ self (run c s w) = s.
Proof.
  intros Hs Hw Hp Hq He Hm.
  apply (run_decode_raises c s w h v (VDict entries)); try assumption.
  unfold decode. rewrite He. cbn [truthy]. unfold ResponseError_new.
  destruct Hm as [Hm | Hm]; rewrite Hm.
  - reflexivity.
  - destruct (lookup "code" (k :: kv)); reflexivity.
Qed.

(** ** Closing and reopening *)

(** X9. Once [close()] has returned, every RPC method is refused with
    the not-connected exception and the transport is not called again. *)
Theorem rpc_after_close_is_refused (c : Rpc) (s : Surreal) (w : World) (v : value) :
  result (close s w) = Return v ->
  result (run c (self (close s w)) (world (close s w))) = Raise not_connected
  /\ calls (world (run c (self (close s w)) (world (close s w))))
     = calls (world (close s w)).
Proof.
  intros Hr.
  assert (Hd : client_state (self (close s w)) <> CONNECTED).
  { destruct (close_cases s w) as [[w' E] | [e [w' E]]]; rewrite E in *.
    - cbn. discriminate.
    - discriminate Hr. }
  rewrite (run_rejects c _ _ Hd). split; reflexivity.
Qed.

(** The world after a [close()] whose transport calls all returned. *)
Definition closed_world (s : Surreal) (w : World) : World :=
  let w1 := match ws s with
            | Some h => called (ws_close h) w
            | None => w
            end in
  match session s with
  | Some c => called (session_close c) w1
  | None => w1
  end.

Lemma close_quiet_run (s : Surreal) (w : World) :
  quiet_for 2 w ->
  close s w
  = {| result := Return VNone; self := with_state DISCONNECTED s;
       world := closed_world s w |}.
Proof.
  intros Hq.
  destruct (Hq 0 ltac:(lia)) as [v0 H0]. rewrite Nat.add_0_r in H0.
  destruct (Hq 1 ltac:(lia)) as [v1 H1]. rewrite Nat.add_1_r in H1.
  rewrite close_unfold. unfold close_ws, close_session, closed_world.
  destruct (ws s) as [h |], (session s) as [c |].
  - rewrite (bind_return _ _ _ _ _ _ _ (guarded_gives (ws_close h) s w v0 H0)).
    rewrite (bind_return _ _ _ _ _ _ _
               (guarded_gives (session_close c) s (called (ws_close h) w) v1 H1)).
    reflexivity.
  - rewrite (bind_return _ _ _ _ _ _ _ (guarded_gives (ws_close h) s w v0 H0)).
    reflexivity.
  - rewrite (bind_return (ret tt) _ s s w w tt eq_refl).
    rewrite (bind_return _ _ _ _ _ _ _ (guarded_gives (session_close c) s w v0 H0)).
    reflexivity.
  - reflexivity.
Qed.

(** X10. [close()] closes what the client holds and nothing else: the
    websocket first, when there is one, then the session, when there is
    one; on a client that never connected it calls nothing and still
    ends Disconnected. *)
Theorem close_calls_what_it_holds (s : Surreal) (w : World) :
  quiet_for 2 w ->
  calls (world (close s w))
  = (match session s with Some c => [session_close c] | None => [] end
     ++ match ws s with Some h => [ws_close h] | None => [] end
     ++ calls w)%list
  /\ client_state (self (close s w)) = DISCONNECTED.
Proof.
  intros Hq. rewrite (close_quiet_run s w Hq). cbn [world self]. unfold closed_world.
  destruct (ws s), (session s); split; reflexivity.
Qed.

(** X11. A [connect()] whose transport does not open raises the
    transport's exception and does not become Connected, but the session
    it created stays in [self.session], unclosed: the only transport call
    made is the [ws_connect]. [__aenter__] raises the same exception. *)
Theorem failed_connect_keeps_new_session (s : Surreal) (w : World) (e : exception) :
  peer w (length (calls w)) = Fails e ->
  result (connect s w) = Raise e
  /\ client_state (self (connect s w)) = client_state s
  /\ session (self (connect s w)) = Some (objects w)
  /\ ws (self (connect s w)) = ws s
  /\ calls (world (connect s w)) = ws_connect (objects w) (url s) :: calls w
  /\ result (__aenter__ s w) = Raise e.
Proof.
  intros Hp. unfold __aenter__.
  rewrite (bind_raise _ _ _ _ _ _ _ (connect_fails_run s w e Hp)).
  rewrite (connect_fails_run s w e Hp). repeat split.
Qed.

(** X12. Calling [connect()] on a client that is already connected
    replaces the session and the websocket by new ones without closing
    the old ones: the transport sees two [ws_connect] and no close. *)
Theorem connect_twice_replaces_without_closing (s : Surreal) (w : World)
    (v v2 : value) :
  peer w (length (calls w)) = Gives v ->
  peer w (S (length (calls w))) = Gives v2 ->
  ws (self (connect s w)) = Some (S (objects w))
  /\ session (self (connect s w)) = Some (objects w)
  /\ ws (self (connect (self (connect s w)) (world (connect s w))))
     = Some (S (S (S (objects w))))
  /\ session (self (connect (self (connect s w)) (world (connect s w))))
     = Some (S (S (objects w)))
  /\ calls (world (connect (self (connect s w)) (world (connect s w))))
     = ([ws_connect (S (S (objects w))) (url s); ws_connect (objects w) (url s)]
        ++ calls w)%list.
Proof.
  intros Hp Hq. rewrite (connect_gives_run s w v Hp).
  cbn [self world].
  erewrite connect_gives_run by exact Hq.
  repeat split.
Qed.

(** X13. The context manager: when the transport opens and closes
    without failure, [__aenter__] returns the client itself, Connected,
    and [__aexit__], whatever its three arguments, returns [None] and
    leaves it Disconnected; the transport saw the open, then the
    websocket closed, then the session closed, on the objects the open
    created. *)
Theorem context_manager_round_trip (s : Surreal) (w : World) (et ev tb : value) :
  quiet_for 3 w ->
  result (__aenter__ s w) = Return (self (__aenter__ s w))
  /\ client_state (self (__aenter__ s w)) = CONNECTED
  /\ result (__aexit__ et ev tb (self (__aenter__ s w)) (world (__aenter__ s w)))
     = Return VNone
  /\ client_state
       (self (__aexit__ et ev tb (self (__aenter__ s w)) (world (__aenter__ s w))))
     = DISCONNECTED
  /\ calls (world (__aexit__ et ev tb (self (__aenter__ s w)) (world (__aenter__ s w))))
     = ([session_close (objects w); ws_close (S (objects w));
         ws_connect (objects w) (url s)] ++ calls w)%list.
Proof.
  intros Hq.
  destruct (Hq 0 ltac:(lia)) as [v0 H0]. rewrite Nat.add_0_r in H0.
  assert (Ea : __aenter__ s w
               = {| result := Return (self (connect s w)); self := self (connect s w);
                    world := world (connect s w) |}).
  { unfold __aenter__.
    rewrite (bind_return _ _ _ _ _ _ _ (connect_gives_run s w v0 H0)).
    rewrite (connect_gives_run s w v0 H0). reflexivity. }
  rewrite Ea. cbn [result self world].
  rewrite (connect_gives_run s w v0 H0). cbn [result self world client_state].
  split; [reflexivity |]. split; [reflexivity |].
  match goal with
  | |- context [__aexit__ et ev tb ?s1 ?w1] =>
      assert (Hq1 : quiet_for 2 w1);
      [ intros n Hn; cbn [calls peer length];
        destruct (Hq (S n) ltac:(lia)) as [x Hx];
        rewrite Nat.add_succ_r in Hx; exists x; exact Hx
      | assert (Ex : __aexit__ et ev tb s1 w1
                     = {| result := Return VNone; self := with_state DISCONNECTED s1;
                          world := closed_world s1 w1 |});
        [ unfold __aexit__;
          rewrite (bind_return _ _ _ _ _ _ _ (close_quiet_run s1 w1 Hq1)); reflexivity
        | rewrite Ex ] ]
  end.
  repeat split.
Qed.

(** X14. Neither [connect()] nor [close()] touches the cached token or
    the url, whatever their outcome: the token a client holds after a
    close and a reconnect is the one it held before. *)
Theorem lifecycle_keeps_token_and_url (s : Surreal) (w : World) :
  token (self (connect s w)) = token s
  /\ url (self (connect s w)) = url s
  /\ url (self (close s w)) = url s
  /\ token (self (connect (self (close s w)) (world (close s w)))) = token s.
Proof.
  assert (Hc : forall s0 w0,
             token (self (connect s0 w0)) = token s0
             /\ url (self (connect s0 w0)) = url s0).
  { intros s0 w0. destruct (peer w0 (length (calls w0))) as [v | e] eqn:Hp.
    - rewrite (connect_gives_run s0 w0 v Hp). split; reflexivity.
    - rewrite (connect_fails_run s0 w0 e Hp). split; reflexivity. }
  destruct (close_keeps_fields s w) as [Hu [Ht _]].
  destruct (Hc s w) as [Hct Hcu].
  destruct (Hc (self (close s w)) (world (close s w))) as [Hct' _].
  repeat split; congruence.
Qed.

(** ** Histories of a client *)

(** What a program using the client can do with it. *)
Inductive Op : Type :=
| Connect
| Close
| Call (c : Rpc).

Definition step (o : Op) : Prog value :=
  match o with
  | Connect => connect
  | Close => close
  | Call c => run c
  end.

(** A history: the operations run one after the other on the same client,
    the caller carrying on after an exception. *)
Fixpoint steps (os : list Op) (s : Surreal) (w : World) : Surreal * World :=
  match os with
  | [] => (s, w)
  | o :: rest => steps rest (self (step o s w)) (world (step o s w))
  end.

(** A Connected client holds a websocket, and a client that holds a
    websocket holds a session. *)
Definition transport_held (s : Surreal) : Prop :=
  (client_state s = CONNECTED -> exists h, ws s = Some h)
  /\ (forall h, ws s = Some h -> exists c, session s = Some c).

Lemma step_transport_held (o : Op) (s : Surreal) (w : World) :
  transport_held s -> transport_held (self (step o s w)).
Proof.
  intros [Hc Hw]. destruct o as [| | c]; cbn [step].
  - destruct (peer w (length (calls w))) as [v | e] eqn:Hp.
    + rewrite (connect_gives_run s w v Hp). split; cbn; eauto.
    + rewrite (connect_fails_run s w e Hp). split; cbn; eauto.
  - destruct (close_cases s w) as [[w' E] | [e [w' E]]]; rewrite E; cbn [self].
    + split; cbn; [discriminate | exact Hw].
    + split; assumption.
  - destruct (run_keeps_connection c s w) as [Es [_ [Ese Ews]]].
    split.
    + rewrite Es, Ews. exact Hc.
    + rewrite Ese, Ews. exact Hw.
Qed.

(** X15. Along every history of a client created by [Surreal(url)]
    (connects, closes and RPC calls in any order, with any transport
    behaviour and any exceptions on the way), a client in the Connected
    state holds a websocket and a session: the
    [assert self.ws is not None] of [_send] and [_recv] never fails. *)
Theorem connected_client_holds_websocket (os : list Op) (u : string) (w : World) :
  client_state (fst (steps os (__init__ u) w)) = CONNECTED ->
  exists h c,
    ws (fst (steps os (__init__ u) w)) = Some h
    /\ session (fst (steps os (__init__ u) w)) = Some c
    /\ forall w', result (assert_ws (fst (steps os (__init__ u) w)) w') = Return h.
Proof.
  assert (Hinv : forall l s w0, transport_held s -> transport_held (fst (steps l s w0))).
  { intros l. induction l as [| o rest IH]; intros s w0 Hs; cbn [steps fst].
    - exact Hs.
    - apply IH, step_transport_held, Hs. }
  assert (H0 : transport_held (__init__ u)).
  { split; cbn; [discriminate | intros h; discriminate]. }
  intros Hc. destruct (Hinv os (__init__ u) w H0) as [Hws Hse].
  destruct (Hws Hc) as [h Hh]. destruct (Hse h Hh) as [c Hcs].
  exists h, c. split; [exact Hh |]. split; [exact Hcs |].
  intros w'. rewrite (assert_ws_holds _ w' h Hh). reflexivity.
Qed.

(** ** Who holds which transport *)

(** Programs that create no transport object. *)
Definition allocates_none {A : Type} (m : Prog A) : Prop :=
  forall s w, objects (world (m s w)) = objects w.

Lemma allocates_none_bind {A B : Type} (m : Prog A) (k : A -> Prog B) :
  allocates_none m -> (forall a, allocates_none (k a)) -> allocates_none (bind m k).
Proof.
  intros Hm Hk s w. unfold bind.
  destruct (result (m s w)) as [a | e].
  - rewrite Hk. apply Hm.
  - cbn. apply Hm.
Qed.

Lemma allocates_none_invoke (i : Invocation) : allocates_none (invoke i).
Proof.
  intros s w. unfold invoke. destruct (peer w (length (calls w))); reflexivity.
Qed.

Lemma allocates_none_lift {A : Type} (o : outcome A) : allocates_none (lift o).
Proof. intros s w. destruct o; reflexivity. Qed.

Ltac allocates :=
  repeat first
    [ apply allocates_none_invoke
    | apply allocates_none_lift
    | apply allocates_none_bind; [| intros ?]
    | match goal with
      | |- allocates_none (match ?x with _ => _ end) => destruct x
      end
    | (intros ? ?; reflexivity) ].

Lemma allocates_none_close : allocates_none close.
Proof. unfold close. allocates. Qed.

Lemma allocates_none_run (c : Rpc) : allocates_none (run c).
Proof.
  intros s w. rewrite run_conclude, conclude_world.
  assert (Hx : allocates_none (_send_receive (request_of c (entropy w (drawn w))))).
  { unfold _send_receive, _send, _recv, _validate_connection, assert_ws. allocates. }
  rewrite Hx. reflexivity.
Qed.

(** The client holds the object [h], as its websocket or as its
    session. *)
Definition holds (s : Surreal) (h : handle) : Prop :=
  ws s = Some h \/ session s = Some h.

(** An operation creates objects or not, and what the client holds
    afterwards it held before or was created by the operation. *)
Lemma step_holds (o : Op) (s : Surreal) (w : World) :
  objects w <= objects (world (step o s w))
  /\ forall h, holds (self (step o s w)) h ->
       holds s h \/ (objects w <= h /\ h < objects (world (step o s w))).
Proof.
  destruct o as [| | c]; cbn [step].
  - destruct (peer w (length (calls w))) as [v | e] eqn:Hp.
    + rewrite (connect_gives_run s w v Hp). cbn [self world objects]. split; [lia |].
      intros h [E | E]; cbn in E; injection E as <-; right; lia.
    + rewrite (connect_fails_run s w e Hp). cbn [self world objects]. split; [lia |].
      intros h [E | E]; cbn in E.
      * left. left. exact E.
      * injection E as <-. right. lia.
  - rewrite allocates_none_close. split; [lia |].
    destruct (close_keeps_fields s w) as [_ [_ [Hse Hws]]].
    intros h [E | E]; left; [left | right]; congruence.
  - rewrite allocates_none_run. split; [lia |].
    destruct (run_keeps_connection c s w) as [_ [_ [Hse Hws]]].
    intros h [E | E]; left; [left | right]; congruence.
Qed.

(** What a program holding several clients can do: create one more, or
    run an operation on the one it created i-th. *)
Inductive ClientOp : Type :=
| New (url : string)
| On (i : nat) (o : Op).

Fixpoint set_nth {A : Type} (i : nat) (x : A) (l : list A) : list A :=
  match l, i with
  | [], _ => []
  | _ :: rest, 0 => x :: rest
  | a :: rest, S i' => a :: set_nth i' x rest
  end.

Definition act (a : ClientOp) (cs : list Surreal) (w : World) : list Surreal * World :=
  match a with
  | New u => ((cs ++ [__init__ u])%list, w)
  | On i o =>
      match nth_error cs i with
      | Some s => (set_nth i (self (step o s w)) cs, world (step o s w))
      | None => (cs, w)
      end
  end.

(** A history of several clients over one transport, starting with the
    clients [cs]. *)
Fixpoint acts (l : list ClientOp) (cs : list Surreal) (w : World)
  : list Surreal * World :=
  match l with
  | [] => (cs, w)
  | a :: rest => acts rest (fst (act a cs w)) (snd (act a cs w))
  end.

Lemma nth_error_set_nth_same {A : Type} (i : nat) (x : A) (l : list A) (y : A) :
  nth_error (set_nth i x l) i = Some y -> y = x.
Proof.
  revert i. induction l as [| a rest IH]; intros [| i]; cbn; intros E;
    try discriminate.
  - congruence.
  - apply (IH i E).
Qed.

Lemma nth_error_set_nth_other {A : Type} (i j : nat) (x : A) (l : list A) :
  i <> j -> nth_error (set_nth i x l) j = nth_error l j.
Proof.
  revert i j. induction l as [| a rest IH]; intros [| i] [| j] Hij; cbn;
    try reflexivity.
  - contradiction Hij. reflexivity.
  - apply IH. intros E. apply Hij. f_equal. exact E.
Qed.

(** Every object held was created, and no object is held by two
    clients. *)
Definition exclusive (cs : list Surreal) (w : World) : Prop :=
  (forall i s h, nth_error cs i = Some s -> holds s h -> h < objects w)
  /\ (forall i j si sj h,
        nth_error cs i = Some si -> nth_error cs j = Some sj ->
        holds si h -> holds sj h -> i = j).

Lemma act_exclusive (a : ClientOp) (cs : list Surreal) (w : World) :
  exclusive cs w -> exclusive (fst (act a cs w)) (snd (act a cs w)).
Proof.
  intros [Hb Hd]. destruct a as [u | i o]; cbn [act].
  - cbn [fst snd].
    assert (Hnew : forall k s, nth_error (cs ++ [__init__ u]) k = Some s ->
                     nth_error cs k = Some s \/ forall h, ~ holds s h).
    { intros k s E. destruct (Nat.lt_ge_cases k (length cs)) as [Hl | Hl].
      - left. rewrite nth_error_app1 in E by exact Hl. exact E.
      - right. rewrite nth_error_app2 in E by exact Hl.
        destruct (k - length cs) as [| n]; cbn in E.
        + injection E as <-. intros h [F | F]; discriminate F.
        + destruct n; discriminate E. }
    split.
    + intros k s h E Hh. destruct (Hnew k s E) as [E' | N].
      * apply (Hb k s h E' Hh).
      * contradiction (N h Hh).
    + intros k j sk sj h Ek Ej Hk Hj.
      destruct (Hnew k sk Ek) as [Ek' | N]; [| contradiction (N h Hk)].
      destruct (Hnew j sj Ej) as [Ej' | N]; [| contradiction (N h Hj)].
      apply (Hd k j sk sj h Ek' Ej' Hk Hj).
  - destruct (nth_error cs i) as [s |] eqn:Ei; cbn [fst snd]; [| split; assumption].
    destruct (step_holds o s w) as [Hle Hst].
    assert (Hat : forall k sk h,
               nth_error (set_nth i (self (step o s w)) cs) k = Some sk -> holds sk h ->
               (exists sk', nth_error cs k = Some sk' /\ holds sk' h)
               \/ (k = i /\ objects w <= h /\ h < objects (world (step o s w)))).
    { intros k sk h E Hh. destruct (Nat.eq_dec i k) as [<- | Hne].
      - apply nth_error_set_nth_same in E. subst sk.
        destruct (Hst h Hh) as [Hold | Hfresh].
        + left. exists s. split; assumption.
        + right. split; [reflexivity | exact Hfresh].
      - rewrite (nth_error_set_nth_other i k _ cs Hne) in E.
        left. exists sk. split; assumption. }
    split.
    + intros k sk h E Hh. destruct (Hat k sk h E Hh) as [[sk' [E' Hh']] | [_ [_ Hlt]]].
      * specialize (Hb k sk' h E' Hh'). lia.
      * exact Hlt.
    + intros k j sk sj h Ek Ej Hk Hj.
      destruct (Hat k sk h Ek Hk) as [[sk' [Ek' Hk']] | [-> [Hge _]]];
        destruct (Hat j sj h Ej Hj) as [[sj' [Ej' Hj']] | [-> [Hge' _]]].
      * apply (Hd k j sk' sj' h Ek' Ej' Hk' Hj').
      * specialize (Hb k sk' h Ek' Hk'). lia.
      * specialize (Hb j sj' h Ej' Hj'). lia.
      * reflexivity.
Qed.

Lemma acts_exclusive (l : list ClientOp) (cs : list Surreal) (w : World) :
  exclusive cs w -> exclusive (fst (acts l cs w)) (snd (acts l cs w)).
Proof.
  revert cs w. induction l as [| a rest IH]; intros cs w Hx; cbn [acts].
  - exact Hx.
  - apply IH, act_exclusive, Hx.
Qed.

(** C9, as amended. Along every history of any number of clients created
    by [Surreal(url)] and used through [connect()], [close()] and the RPC
    methods, over one transport, no websocket or session object is held
    by two clients: each [connect()] creates the ones it stores.
    [close()] closes the objects the client holds (when the underlying
    closes return, its transport calls are the websocket's close, then the
    session's close) but it does not drop them: whatever its outcome,
    [self.ws] and [self.session] are what they were before, so that after
    a [connect()] and a [close()] the client still holds the websocket
    acquired in [connect()]. *)
Theorem transport_kept_after_close (s : Surreal) (w : World)
    (l : list ClientOp) (w0 : World) :
  (ws (self (close s w)) = ws s /\ session (self (close s w)) = session s)
  /\ (quiet_for 2 w ->
      calls (world (close s w))
      = (match session s with Some c => [session_close c] | None => [] end
         ++ match ws s with Some h => [ws_close h] | None => [] end
         ++ calls w)%list)
  /\ (forall v v2,
        peer w (length (calls w)) = Gives v ->
        peer w (S (length (calls w))) = Gives v2 ->
        ws (self (connect s w)) = Some (S (objects w))
        /\ session (self (connect s w)) = Some (objects w)
        /\ ws (self (close (self (connect s w)) (world (connect s w))))
           = Some (S (objects w))
        /\ session (self (close (self (connect s w)) (world (connect s w))))
           = Some (objects w))
  /\ (forall i j si sj h,
        nth_error (fst (acts l [] w0)) i = Some si ->
        nth_error (fst (acts l [] w0)) j = Some sj ->
        holds si h -> holds sj h -> i = j).
Proof.
  destruct (close_keeps_fields s w) as [_ [_ [Hse Hws]]].
  split; [split; assumption |]. split; [| split].
  - intros Hq. rewrite (close_quiet_run s w Hq). cbn [world]. unfold closed_world.
    destruct (ws s), (session s); reflexivity.
  - intros v v2 Hp Hp2.
    destruct (close_keeps_fields (self (connect s w)) (world (connect s w)))
      as [_ [_ [Hkse Hkws]]].
    rewrite Hkse, Hkws, (connect_gives_run s w v Hp). repeat split.
  - assert (H0 : exclusive [] w0).
    { split.
      - intros i s0 h E. destruct i; discriminate E.
      - intros i j si sj h E. destruct i; discriminate E. }
    apply (proj2 (acts_exclusive l [] w0 H0)).
Qed.

(** ** Request identifiers *)

(** Programs that draw no uuid. *)
Definition draws_none {A : Type} (m : Prog A) : Prop :=
  forall s w, drawn (world (m s w)) = drawn w.

Lemma draws_none_bind {A B : Type} (m : Prog A) (k : A -> Prog B) :
  draws_none m -> (forall a, draws_none (k a)) -> draws_none (bind m k).
Proof.
  intros Hm Hk s w. unfold bind.
  destruct (result (m s w)) as [a | e].
  - rewrite Hk. apply Hm.
  - cbn. apply Hm.
Qed.

Lemma draws_none_invoke (i : Invocation) : draws_none (invoke i).
Proof.
  intros s w. unfold invoke. destruct (peer w (length (calls w))); reflexivity.
Qed.

Lemma draws_none_lift {A : Type} (o : outcome A) : draws_none (lift o).
Proof. intros s w. destruct o; reflexivity. Qed.

Ltac draws :=
  repeat first
    [ apply draws_none_invoke
    | apply draws_none_lift
    | apply draws_none_bind; [| intros ?]
    | match goal with
      | |- draws_none (match ?x with _ => _ end) => destruct x
      end
    | (intros ? ?; reflexivity) ].

Lemma draws_none__send_receive (request : Request) :
  draws_none (_send_receive request).
Proof.
  unfold _send_receive, _send, _recv, _validate_connection, assert_ws. draws.
Qed.

Lemma draws_none_connect : draws_none connect.
Proof. unfold connect. draws. Qed.

Lemma draws_none_close : draws_none close.
Proof. unfold close. draws. Qed.

Lemma run_draws_one (c : Rpc) (s : Surreal) (w : World) :
  drawn (world (run c s w)) = S (drawn w).
Proof.
  rewrite run_conclude, conclude_world, draws_none__send_receive. reflexivity.
Qed.

(** The RPC calls in a history. *)
Fixpoint count_calls (os : list Op) : nat :=
  match os with
  | [] => 0
  | Call _ :: rest => S (count_calls rest)
  | _ :: rest => count_calls rest
  end.

(** X16. Every RPC call draws exactly one uuid, whether it is refused,
    fails in the transport or is answered, and [connect()] and [close()]
    draw none: after any history the number of uuids drawn has grown by
    the number of RPC calls made. *)
Theorem one_uuid_per_rpc_call (os : list Op) (s : Surreal) (w : World) :
  drawn (snd (steps os s w)) = drawn w + count_calls os.
Proof.
  revert s w. induction os as [| o rest IH]; intros s w; cbn [steps snd count_calls].
  - rewrite Nat.add_0_r. reflexivity.
  - rewrite IH. destruct o as [| | c]; cbn [step].
    + rewrite draws_none_connect. reflexivity.
    + rewrite draws_none_close. reflexivity.
    + rewrite run_draws_one. rewrite Nat.add_succ_r. reflexivity.
Qed.

(** ** The guards of the two halves *)

(** X17. [_send] and [_recv] each check the connection on their own:
    called outside the Connected state, either raises the not-connected
    exception and leaves the client and the world, transport included,
    exactly as they were. *)
Theorem send_and_recv_check_the_connection (request : Request)
    (s : Surreal) (w : World) :
  client_state s <> CONNECTED ->
  _send request s w = {| result := Raise not_connected; self := s; world := w |}
  /\ _recv s w = {| result := Raise not_connected; self := s; world := w |}.
Proof.
  intros Hs. split.
  - unfold _send. apply bind_raise, _validate_connection_rejects, Hs.
  - unfold _recv. apply bind_raise, _validate_connection_rejects, Hs.
Qed.

End Protocol.

(** * Concrete runs *)

#[local] Existing Instance strict.

Ltac quiet :=
  let n := fresh "n" in
  let Hn := fresh "Hn" in
  intros n Hn;
  repeat (destruct n as [| n]; [eexists; reflexivity |]);
  exfalso; lia.

(** A fresh client, never connected, is refused by ping: the transport
    log stays empty. *)
Lemma rpc_outside_connected_fails_witness :
  result (run Ping (__init__ "ws://127.0.0.1:8000/rpc") (world_of []))
  = Raise (Exc SurrealException [VStr "Not connected to Surreal server."])
  /\ calls (world (run Ping (__init__ "ws://127.0.0.1:8000/rpc") (world_of []))) = []
  /\ self (run Ping (__init__ "ws://127.0.0.1:8000/rpc") (world_of []))
     = __init__ "ws://127.0.0.1:8000/rpc".
Proof.
  apply (rpc_outside_connected_fails Ping (__init__ "ws://127.0.0.1:8000/rpc") (world_of [])).
  left. reflexivity.
Defined.

(** The frame of the spec's example, answered to a signin. *)
Lemma server_error_raised_by_context_witness :
  result (run (Signin VNone)
            (self (connected_in [Gives VNone; Gives (error_frame 100 "bad auth")]))
            (world (connected_in [Gives VNone; Gives (error_frame 100 "bad auth")])))
  = Raise (Exc SurrealAuthenticationException [VStr "bad auth"]).
Proof.
  apply (server_error_raised_by_context (Signin VNone)
           (self (connected_in [Gives VNone; Gives (error_frame 100 "bad auth")]))
           (world (connected_in [Gives VNone; Gives (error_frame 100 "bad auth")]))
           1 VNone
           [("error", VDict [("code", VInt 100); ("message", VStr "bad auth")])]
           [("code", VInt 100); ("message", VStr "bad auth")]
           100%Z "bad auth");
    reflexivity.
Defined.

(** C2 fails on the code: an error answered to kill is raised as the
    plain [SurrealException], not as a permission error, and the exception
    built for code 100 is the one built for code 200: the code is not in
    it. *)
Lemma kill_error_is_generic_and_code_is_dropped :
  result (kill "q"
            (self (connected_in [Gives VNone; Gives (error_frame 100 "bad auth")]))
            (world (connected_in [Gives VNone; Gives (error_frame 100 "bad auth")])))
  = Raise (Exc SurrealException [VStr "bad auth"])
  /\ ~ (exists args,
          result (kill "q"
                    (self (connected_in [Gives VNone; Gives (error_frame 100 "bad auth")]))
                    (world (connected_in [Gives VNone; Gives (error_frame 100 "bad auth")])))
          = Raise (Exc SurrealPermissionException args))
  /\ result (signin VNone
               (self (connected_in [Gives VNone; Gives (error_frame 100 "bad auth")]))
               (world (connected_in [Gives VNone; Gives (error_frame 100 "bad auth")])))
     = result (signin VNone
                 (self (connected_in [Gives VNone; Gives (error_frame 200 "bad auth")]))
                 (world (connected_in [Gives VNone; Gives (error_frame 200 "bad auth")]))).
Proof.
  split; [reflexivity |]. split; [| reflexivity].
  intros [args E]. vm_compute in E. discriminate E.
Qed.

Lemma frame_parsed_by_truthy_error_field_witness :
  result (_recv (self (connected_in [Gives (error_frame 100 "bad auth")]))
            (world (connected_in [Gives (error_frame 100 "bad auth")])))
  = Return (Error {| re_code := 100%Z; re_message := "bad auth" |}).
Proof.
  apply (proj1 (proj2
           (frame_parsed_by_truthy_error_field
              (self (connected_in [Gives (error_frame 100 "bad auth")]))
              (world (connected_in [Gives (error_frame 100 "bad auth")]))
              1
              [("error", VDict [("code", VInt 100); ("message", VStr "bad auth")])]
              eq_refl eq_refl eq_refl))
           [("code", VInt 100); ("message", VStr "bad auth")] 100%Z "bad auth");
    reflexivity.
Defined.

(** C3 fails on the code: the frame
    [{"id": "1", "result": 1, "error": null}] carries the error field and
    parses to Success, and the frame [{"result": 1}], which carries none,
    does not parse to Success: it raises a validation error. *)
Lemma null_error_field_parses_to_success :
  lookup "error" [("id", VStr "1"); ("result", VInt 1); ("error", VNone)] = Some VNone
  /\ result (_recv
               (self (connected_in
                        [Gives (VDict [("id", VStr "1"); ("result", VInt 1);
                                       ("error", VNone)])]))
               (world (connected_in
                         [Gives (VDict [("id", VStr "1"); ("result", VInt 1);
                                        ("error", VNone)])])))
     = Return (Success {| rs_id := "1"; rs_result := VInt 1 |})
  /\ lookup "error" [("result", VInt 1)] = None
  /\ result (_recv (self (connected_in [Gives (VDict [("result", VInt 1)])]))
               (world (connected_in [Gives (VDict [("result", VInt 1)])])))
     = Raise validation_error.
Proof. repeat split. Qed.

Lemma close_disconnects_unless_transport_raises_witness :
  (result (close (self (connected_in [Gives VNone; Gives VNone]))
             (world (connected_in [Gives VNone; Gives VNone]))) = Return VNone
   /\ client_state (self (close (self (connected_in [Gives VNone; Gives VNone]))
                            (world (connected_in [Gives VNone; Gives VNone]))))
      = DISCONNECTED)
  /\ (result (close (self (connected_in [Fails transport_error]))
                (world (connected_in [Fails transport_error])))
      = Raise transport_error
      /\ self (close (self (connected_in [Fails transport_error]))
                 (world (connected_in [Fails transport_error])))
         = self (connected_in [Fails transport_error]))
  /\ (result (close (self (connected_in [Gives VNone; Fails transport_error]))
                (world (connected_in [Gives VNone; Fails transport_error])))
      = Raise transport_error
      /\ self (close (self (connected_in [Gives VNone; Fails transport_error]))
                 (world (connected_in [Gives VNone; Fails transport_error])))
         = self (connected_in [Gives VNone; Fails transport_error])).
Proof.
  split; [| split].
  - apply (proj1 (close_disconnects_unless_transport_raises
                    (self (connected_in [Gives VNone; Gives VNone]))
                    (world (connected_in [Gives VNone; Gives VNone])))).
    quiet.
  - apply (proj1 (proj2 (proj2 (close_disconnects_unless_transport_raises
                    (self (connected_in [Fails transport_error]))
                    (world (connected_in [Fails transport_error])))))
             1 transport_error); reflexivity.
  - apply (proj1 (proj2 (proj2 (proj2 (proj2
             (close_disconnects_unless_transport_raises
                (self (connected_in [Gives VNone; Fails transport_error]))
                (world (connected_in [Gives VNone; Fails transport_error])))))))
             1 0 VNone transport_error); reflexivity.
Defined.

(** C4 fails on the code: when [ws.close()] raises, [close()] raises the
    same exception and the client stays Connected. *)
Lemma close_raises_when_transport_close_raises :
  result (close (self (connected_in [Fails transport_error]))
            (world (connected_in [Fails transport_error])))
  = Raise transport_error
  /\ client_state (self (close (self (connected_in [Fails transport_error]))
                           (world (connected_in [Fails transport_error]))))
     = CONNECTED
  /\ CONNECTED <> DISCONNECTED.
Proof. repeat split. discriminate. Qed.



(** signin answered by the token "tok", then invalidate answered by an
    error: the token is stored, and kept. *)
Lemma token_written_only_by_auth_flow_witness :
  (result (run (Signin (VDict [("user", VStr "root"); ("pass", VStr "root")]))
             (self (connected_in [Gives VNone; Gives (success_frame "1" (VStr "tok"));
                                  Gives VNone; Gives (error_frame 100 "bad auth")]))
             (world (connected_in [Gives VNone; Gives (success_frame "1" (VStr "tok"));
                                   Gives VNone; Gives (error_frame 100 "bad auth")])))
   = Return (VStr "tok")
   /\ token (self (run (Signin (VDict [("user", VStr "root"); ("pass", VStr "root")]))
                    (self (connected_in
                             [Gives VNone; Gives (success_frame "1" (VStr "tok"));
                              Gives VNone; Gives (error_frame 100 "bad auth")]))
                    (world (connected_in
                              [Gives VNone; Gives (success_frame "1" (VStr "tok"));
                               Gives VNone; Gives (error_frame 100 "bad auth")]))))
      = VStr "tok")
  /\ (token (self signed_in) = VStr "tok"
      /\ result (run Invalidate (self signed_in) (world signed_in))
         = Raise (Exc SurrealAuthenticationException [VStr "bad auth"])
      /\ token (self (run Invalidate (self signed_in) (world signed_in))) = VStr "tok").
Proof.
  split.
  - destruct (token_written_only_by_auth_flow
                (Signin (VDict [("user", VStr "root"); ("pass", VStr "root")]))
                (self (connected_in [Gives VNone; Gives (success_frame "1" (VStr "tok"));
                                     Gives VNone; Gives (error_frame 100 "bad auth")]))
                (world (connected_in [Gives VNone; Gives (success_frame "1" (VStr "tok"));
                                      Gives VNone; Gives (error_frame 100 "bad auth")])))
      as [_ [_ [_ [Hsuccess _]]]].
    exact (Hsuccess 1 VNone [("id", VStr "1"); ("result", VStr "tok")] "1" (VStr "tok")
             eq_refl eq_refl eq_refl eq_refl (or_introl eq_refl) eq_refl eq_refl).
  - split; [reflexivity |].
    destruct (token_written_only_by_auth_flow Invalidate (self signed_in) (world signed_in))
      as [_ [_ [_ [_ Herror]]]].
    exact (Herror 1 VNone
             [("error", VDict [("code", VInt 100); ("message", VStr "bad auth")])]
             [("code", VInt 100); ("message", VStr "bad auth")] 100%Z "bad auth"
             eq_refl eq_refl eq_refl eq_refl eq_refl eq_refl eq_refl).
Defined.

Lemma success_result_returned_witness :
  result (run (Select "person")
            (self (connected_in [Gives VNone; Gives (success_frame "1" people)]))
            (world (connected_in [Gives VNone; Gives (success_frame "1" people)])))
  = Return people.
Proof.
  apply (proj1 (success_result_returned (Select "person")
           (self (connected_in [Gives VNone; Gives (success_frame "1" people)]))
           (world (connected_in [Gives VNone; Gives (success_frame "1" people)]))
           1 VNone [("id", VStr "1"); ("result", people)] "1" people
           eq_refl eq_refl eq_refl eq_refl (or_introl eq_refl) eq_refl eq_refl)).
Defined.

(** C6 fails on the code: [use] answered by the success frame
    [{"id": "1", "result": 1}] returns [None], not 1. *)
Lemma use_discards_the_result :
  result (use "test" "test"
            (self (connected_in [Gives VNone; Gives (success_frame "1" (VInt 1))]))
            (world (connected_in [Gives VNone; Gives (success_frame "1" (VInt 1))])))
  = Return VNone
  /\ result (use "test" "test"
               (self (connected_in [Gives VNone; Gives (success_frame "1" (VInt 1))]))
               (world (connected_in [Gives VNone; Gives (success_frame "1" (VInt 1))])))
     <> Return (VInt 1).
Proof. split; [reflexivity | discriminate]. Qed.

(** The spec's scenario: connect, then ping. *)
Lemma absent_params_empty_list_witness :
  calls (world (ping
                  (self (connected_in [Gives VNone; Gives (success_frame "1" (VBool true))]))
                  (world (connected_in [Gives VNone; Gives (success_frame "1" (VBool true))]))))
  = [receive_json 1;
     send_json 1 (VDict [("id", VStr "1b4e28ba-2fa1-41d2-883f-0016d3cca427");
                         ("method", VStr "ping"); ("params", VList [])]);
     ws_connect 0 "ws://127.0.0.1:8000/rpc"].
Proof.
  apply (proj2 (proj2 (absent_params_empty_list
           (self (connected_in [Gives VNone; Gives (success_frame "1" (VBool true))]))
           (world (connected_in [Gives VNone; Gives (success_frame "1" (VBool true))]))
           1 eq_refl eq_refl))).
Defined.

(** One client connected and closed; then two clients created and
    connected over the same transport: the second, which holds the
    websocket 3, does not hold the websocket 1 of the first. *)
Lemma transport_kept_after_close_witness :
  calls (world closed_client)
  = [session_close 0; ws_close 1; ws_connect 0 "ws://127.0.0.1:8000/rpc"]
  /\ ws (self (close (self (connect (__init__ "ws://127.0.0.1:8000/rpc")
                               (world_of [Gives VNone; Gives VNone])))
                     (world (connect (__init__ "ws://127.0.0.1:8000/rpc")
                               (world_of [Gives VNone; Gives VNone])))))
     = Some 1
  /\ ~ holds {| url := "ws://10.0.0.2:8000/rpc"; client_state := CONNECTED;
                token := VNone; session := Some 2; ws := Some 3 |} 1.
Proof.
  split; [| split].
  - apply (proj1 (proj2 (transport_kept_after_close
             (self (connected_in [Gives VNone; Gives VNone; Gives VNone]))
             (world (connected_in [Gives VNone; Gives VNone; Gives VNone]))
             [] (world_of [])))).
    quiet.
  - apply (proj1 (proj2 (proj2 (proj1 (proj2 (proj2
             (transport_kept_after_close (__init__ "ws://127.0.0.1:8000/rpc")
                (world_of [Gives VNone; Gives VNone]) [] (world_of []))))
             VNone VNone eq_refl eq_refl)))).
  - intros Hh.
    pose (first := {| url := "ws://127.0.0.1:8000/rpc"; client_state := CONNECTED;
                      token := VNone; session := Some 0; ws := Some 1 |}).
    pose (second := {| url := "ws://10.0.0.2:8000/rpc"; client_state := CONNECTED;
                       token := VNone; session := Some 2; ws := (Some 3) |}).
    assert (E : 0 = 1).
    { exact (proj2 (proj2 (proj2
               (transport_kept_after_close (__init__ "ws://127.0.0.1:8000/rpc")
                  (world_of [])
                  [New "ws://127.0.0.1:8000/rpc"; New "ws://10.0.0.2:8000/rpc";
                   On 0 Connect; On 1 Connect]
                  (world_of [Gives VNone; Gives VNone]))))
               0 1 first second 1 eq_refl eq_refl (or_introl eq_refl) Hh). }
    discriminate E.
Defined.

(** C9 fails on the code: after [close()] has returned, the client still
    holds the websocket and the session it acquired in [connect()]. *)
Lemma closed_client_still_holds_transport :
  result closed_client = Return VNone
  /\ ws (self closed_client)
     = ws (self (connected_in [Gives VNone; Gives VNone; Gives VNone]))
  /\ ws (self closed_client) = Some 1
  /\ session (self closed_client) = Some 0
  /\ ws (self closed_client) <> None.
Proof. repeat split. discriminate. Qed.

(** ** Concrete runs of the further properties *)

Lemma rpc_sends_one_envelope_witness :
  calls (world (run (Merge "person:tobie" (VDict [("active", VBool true)]))
                  (self (connected_in [Gives VNone; Gives (success_frame "1" VNone)]))
                  (world (connected_in [Gives VNone; Gives (success_frame "1" VNone)]))))
  = [receive_json 1;
     send_json 1 (VDict [("id", VStr "1b4e28ba-2fa1-41d2-883f-0016d3cca427");
                         ("method", VStr "change");
                         ("params", VList [VStr "person:tobie";
                                           VDict [("active", VBool true)]])]);
     ws_connect 0 "ws://127.0.0.1:8000/rpc"].
Proof.
  exact (rpc_sends_one_envelope
           (Merge "person:tobie" (VDict [("active", VBool true)]))
           (self (connected_in [Gives VNone; Gives (success_frame "1" VNone)]))
           (world (connected_in [Gives VNone; Gives (success_frame "1" VNone)]))
           1 eq_refl eq_refl).
Defined.

(** [create("person", {})]: the empty mapping is sent. *)
Lemma none_argument_is_omitted_witness :
  In (send_json 1 (VDict [("id", VStr "1b4e28ba-2fa1-41d2-883f-0016d3cca427");
                          ("method", VStr "create");
                          ("params", VList [VStr "person"; VDict []])]))
     (calls (world (run (Create "person" (VDict []))
                      (self (connected_in [Gives VNone; Gives (success_frame "1" VNone)]))
                      (world (connected_in [Gives VNone; Gives (success_frame "1" VNone)]))))).
Proof.
  apply (proj2 (none_argument_is_omitted (Create "person" (VDict [])) "create" "person"
                  (VDict [])
                  (self (connected_in [Gives VNone; Gives (success_frame "1" VNone)]))
                  (world (connected_in [Gives VNone; Gives (success_frame "1" VNone)]))
                  1 eq_refl eq_refl (or_intror (or_introl eq_refl)))).
  discriminate.
Defined.

Lemma send_failure_propagates_witness :
  result (run Ping (self (connected_in [Fails transport_error]))
            (world (connected_in [Fails transport_error])))
  = Raise transport_error.
Proof.
  exact (proj1 (send_failure_propagates Ping
                  (self (connected_in [Fails transport_error]))
                  (world (connected_in [Fails transport_error]))
                  1 transport_error eq_refl eq_refl eq_refl)).
Defined.

Lemma receive_failure_propagates_witness :
  result (run (Signin VNone) (self (connected_in [Gives VNone; Fails transport_error]))
            (world (connected_in [Gives VNone; Fails transport_error])))
  = Raise transport_error
  /\ self (run (Signin VNone) (self (connected_in [Gives VNone; Fails transport_error]))
             (world (connected_in [Gives VNone; Fails transport_error])))
     = self (connected_in [Gives VNone; Fails transport_error])
  /\ client_state
       (self (run (Signin VNone) (self (connected_in [Gives VNone; Fails transport_error]))
                (world (connected_in [Gives VNone; Fails transport_error]))))
     = CONNECTED.
Proof.
  exact (receive_failure_propagates (Signin VNone)
           (self (connected_in [Gives VNone; Fails transport_error]))
           (world (connected_in [Gives VNone; Fails transport_error]))
           1 VNone transport_error eq_refl eq_refl eq_refl eq_refl).
Defined.

Lemma non_object_frame_raises_attribute_error_witness :
  result (run (Select "person") (self (connected_in [Gives VNone; Gives (VList [])]))
            (world (connected_in [Gives VNone; Gives (VList [])])))
  = Raise (Exc AttributeError []).
Proof.
  exact (proj1 (non_object_frame_raises_attribute_error (Select "person")
                  (self (connected_in [Gives VNone; Gives (VList [])]))
                  (world (connected_in [Gives VNone; Gives (VList [])]))
                  1 VNone (VList []) eq_refl eq_refl eq_refl eq_refl eq_refl)).
Defined.

Lemma error_not_a_mapping_raises_type_error_witness :
  result (run (Select "person")
            (self (connected_in [Gives VNone; Gives (VDict [("error", VStr "oops")])]))
            (world (connected_in [Gives VNone; Gives (VDict [("error", VStr "oops")])])))
  = Raise (Exc TypeError []).
Proof.
  exact (proj1 (error_not_a_mapping_raises_type_error (Select "person")
                  (self (connected_in [Gives VNone; Gives (VDict [("error", VStr "oops")])]))
                  (world (connected_in [Gives VNone; Gives (VDict [("error", VStr "oops")])]))
                  1 VNone (VStr "oops") [("error", VStr "oops")]
                  eq_refl eq_refl eq_refl eq_refl eq_refl eq_refl eq_refl)).
Defined.

Lemma incomplete_error_raises_validation_error_witness :
  result (run (Signin VNone)
            (self (connected_in
                     [Gives VNone;
                      Gives (VDict [("error", VDict [("message", VStr "bad auth")])])]))
            (world (connected_in
                      [Gives VNone;
                       Gives (VDict [("error", VDict [("message", VStr "bad auth")])])])))
  = Raise validation_error.
Proof.
  exact (proj1 (incomplete_error_raises_validation_error (Signin VNone)
                  (self (connected_in
                           [Gives VNone;
                            Gives (VDict [("error", VDict [("message", VStr "bad auth")])])]))
                  (world (connected_in
                            [Gives VNone;
                             Gives (VDict [("error", VDict [("message", VStr "bad auth")])])]))
                  1 VNone [("error", VDict [("message", VStr "bad auth")])] []
                  ("message", VStr "bad auth")
                  eq_refl eq_refl eq_refl eq_refl eq_refl (or_introl eq_refl))).
Defined.

Lemma rpc_after_close_is_refused_witness :
  result (run Ping (self closed_client) (world closed_client))
  = Raise (Exc SurrealException [VStr "Not connected to Surreal server."])
  /\ calls (world (run Ping (self closed_client) (world closed_client)))
     = calls (world closed_client).
Proof.
  exact (rpc_after_close_is_refused Ping
           (self (connected_in [Gives VNone; Gives VNone; Gives VNone]))
           (world (connected_in [Gives VNone; Gives VNone; Gives VNone]))
           VNone eq_refl).
Defined.

Lemma close_calls_what_it_holds_witness :
  calls (world closed_client)
  = [session_close 0; ws_close 1; ws_connect 0 "ws://127.0.0.1:8000/rpc"]
  /\ client_state (self closed_client) = DISCONNECTED.
Proof.
  apply (close_calls_what_it_holds
           (self (connected_in [Gives VNone; Gives VNone; Gives VNone]))
           (world (connected_in [Gives VNone; Gives VNone; Gives VNone]))).
  quiet.
Defined.

Lemma failed_connect_keeps_new_session_witness :
  result (connect (__init__ "ws://127.0.0.1:8000/rpc") (world_of [Fails transport_error]))
  = Raise transport_error
  /\ client_state (self (connect (__init__ "ws://127.0.0.1:8000/rpc")
                           (world_of [Fails transport_error])))
     = CONNECTING
  /\ session (self (connect (__init__ "ws://127.0.0.1:8000/rpc")
                      (world_of [Fails transport_error])))
     = Some 0
  /\ ws (self (connect (__init__ "ws://127.0.0.1:8000/rpc")
                 (world_of [Fails transport_error])))
     = None
  /\ calls (world (connect (__init__ "ws://127.0.0.1:8000/rpc")
                     (world_of [Fails transport_error])))
     = [ws_connect 0 "ws://127.0.0.1:8000/rpc"]
  /\ result (__aenter__ (__init__ "ws://127.0.0.1:8000/rpc")
               (world_of [Fails transport_error]))
     = Raise transport_error.
Proof.
  exact (failed_connect_keeps_new_session (__init__ "ws://127.0.0.1:8000/rpc")
           (world_of [Fails transport_error]) transport_error eq_refl).
Defined.

Lemma connect_twice_replaces_without_closing_witness :
  calls (world (connect
                  (self (connect (__init__ "ws://127.0.0.1:8000/rpc")
                           (world_of [Gives VNone; Gives VNone])))
                  (world (connect (__init__ "ws://127.0.0.1:8000/rpc")
                            (world_of [Gives VNone; Gives VNone])))))
  = [ws_connect 2 "ws://127.0.0.1:8000/rpc"; ws_connect 0 "ws://127.0.0.1:8000/rpc"].
Proof.
  exact (proj2 (proj2 (proj2 (proj2
           (connect_twice_replaces_without_closing (__init__ "ws://127.0.0.1:8000/rpc")
              (world_of [Gives VNone; Gives VNone]) VNone VNone eq_refl eq_refl))))).
Defined.

Lemma context_manager_round_trip_witness :
  calls (world (__aexit__ VNone VNone VNone
                  (self (__aenter__ (__init__ "ws://127.0.0.1:8000/rpc")
                           (world_of [Gives VNone; Gives VNone; Gives VNone])))
                  (world (__aenter__ (__init__ "ws://127.0.0.1:8000/rpc")
                            (world_of [Gives VNone; Gives VNone; Gives VNone])))))
  = [session_close 0; ws_close 1; ws_connect 0 "ws://127.0.0.1:8000/rpc"].
Proof.
  apply (proj2 (proj2 (proj2 (proj2
           (context_manager_round_trip (__init__ "ws://127.0.0.1:8000/rpc")
              (world_of [Gives VNone; Gives VNone; Gives VNone]) VNone VNone VNone
              ltac:(quiet)))))).
Defined.

(** A client that was connected, closed and connected again. *)
Lemma connected_client_holds_websocket_witness :
  exists h c,
    ws (fst (steps [Connect; Close; Connect] (__init__ "ws://127.0.0.1:8000/rpc")
               (world_of [Gives VNone; Gives VNone; Gives VNone; Gives VNone])))
    = Some h
    /\ session (fst (steps [Connect; Close; Connect] (__init__ "ws://127.0.0.1:8000/rpc")
                       (world_of [Gives VNone; Gives VNone; Gives VNone; Gives VNone])))
       = Some c
    /\ forall w',
         result (assert_ws
                   (fst (steps [Connect; Close; Connect]
                           (__init__ "ws://127.0.0.1:8000/rpc")
                           (world_of [Gives VNone; Gives VNone; Gives VNone; Gives VNone])))
                   w')
         = Return h.
Proof.
  exact (connected_client_holds_websocket [Connect; Close; Connect]
           "ws://127.0.0.1:8000/rpc"
           (world_of [Gives VNone; Gives VNone; Gives VNone; Gives VNone])
           eq_refl).
Defined.

Lemma send_and_recv_check_the_connection_witness :
  _recv (__init__ "ws://127.0.0.1:8000/rpc") (world_of [])
  = {| result := Raise (Exc SurrealException [VStr "Not connected to Surreal server."]);
       self := __init__ "ws://127.0.0.1:8000/rpc"; world := world_of [] |}.
Proof.
  apply (proj2 (send_and_recv_check_the_connection (Request_new "1" "ping" None)
                  (__init__ "ws://127.0.0.1:8000/rpc") (world_of [])
                  ltac:(discriminate))).
Defined.
